(** * GPS field-area calculator: coordinate filter, area algorithms, unit toggle

    Shallow embedding of
    - [utils/area-calculations.ts] (shoelace, haversine, convex hull,
      "delaunay", the algorithm dispatcher),
    - the firmware sketch [esp32_gps_area_calculator.ino]
      ([isValidCoordinate], [calculateDistance], [calculateArea]),
    - the dashboard's [toggleAreaUnit] and the algorithms page's private copy
      of the haversine area.

    A JavaScript [number] and a C++ [double] are IEEE-754 binary64 values:
    they are modelled by Rocq's primitive [float], whose [+ - * / sqrt abs]
    and comparisons are the IEEE operations, so every definition below runs
    on concrete inputs.  The transcendental functions of the host
    ([Math.sin], [Math.cos], [Math.atan2]) are not part of the repository and
    are "implementation-approximated" in ECMA-262: the model takes them as a
    parameter [MathLib]; a reference implementation is given to run examples. *)

From Stdlib Require Import String Ascii.
From Stdlib Require Import Floats Uint63 ZArith List Bool Lia.
From Stdlib Require Import Reals Lra.
Import ListNotations.

Set Warnings "-inexact-float".
Local Open Scope float_scope.

(** ** Data model *)

(** [{ lat: number; lon: number }], generic in the number type so that the
    shoelace loop can also be read over exact arithmetic. *)
Record Coordinate (num : Type) : Type := mkCoordinate { lat : num; lon : num }.
Arguments mkCoordinate {num} _ _.
Arguments lat {num} _.
Arguments lon {num} _.

Definition Point : Type := Coordinate float.

Definition pt (la lo : float) : Point := mkCoordinate la lo.

(** [coordinates.length] as a number. *)
Definition lengthF {A : Type} (l : list A) : float :=
  PrimFloat.of_uint63 (Uint63.of_Z (Z.of_nat (List.length l))).

(** ** The host's Math object *)

Record MathLib : Type := mkMathLib {
  Math_sin : float -> float;
  Math_cos : float -> float;
  Math_atan2 : float -> float -> float }.

Definition Math_PI : float := 3.141592653589793.

(** [Math.max(a, b)] of ECMA-262: NaN if an argument is NaN, [+0] above [-0]. *)
Definition isPosZero (x : float) : bool := (x =? 0) && (0 <? 1 / x).
Definition isNegZero (x : float) : bool := (x =? 0) && (1 / x <? 0).
Definition maxStep (highest number : float) : float :=
  if isPosZero number && isNegZero highest then number
  else if highest <? number then number else highest.
Definition Math_max (a b : float) : float :=
  if is_nan a || is_nan b then nan
  else maxStep (maxStep neg_infinity a) b.

(** [Math.sqrt] and [Math.abs] are the IEEE operations. *)
Definition Math_sqrt (x : float) : float := PrimFloat.sqrt x.
Definition Math_abs (x : float) : float := PrimFloat.abs x.

(** [Math.pow(x, 2)] and the C library's [pow(x, 2)]: the fdlibm-derived
    implementations (V8, newlib) return [x * x] for the exponent 2. *)
Definition pow2 (x : float) : float := x * x.

(** ** Shoelace formula *)

Section ShoelaceLoop.
Context {num : Type}.
Variable zero : num.
Variables add sub mul : num -> num -> num.

(** One iteration of the loop body:
    [j = (i + 1) % n; area += c[i].lat * c[j].lon; area -= c[j].lat * c[i].lon]. *)
Definition shoelaceStep (coordinates : list (Coordinate num)) (area : num) (i : nat) : num :=
  let d := mkCoordinate zero zero in
  let j := Nat.modulo (i + 1) (List.length coordinates) in
  let ci := nth i coordinates d in
  let cj := nth j coordinates d in
  sub (add area (mul (lat ci) (lon cj))) (mul (lat cj) (lon ci)).

(** [let area = 0; for (let i = 0; i < coordinates.length; i++) { ... }] *)
Definition shoelaceLoop (coordinates : list (Coordinate num)) : num :=
  fold_left (shoelaceStep coordinates) (seq 0 (List.length coordinates)) zero.
End ShoelaceLoop.

(** The loop over binary64, as the code runs it. *)
Definition shoelaceSum (coordinates : list Point) : float :=
  shoelaceLoop 0 PrimFloat.add PrimFloat.sub PrimFloat.mul coordinates.

(** [area = Math.abs(area) / 2]: the area in square degrees. *)
Definition shoelaceSquareDegrees (coordinates : list Point) : float :=
  Math_abs (shoelaceSum coordinates) / 2.

(** [calculateShoelaceArea] of area-calculations.ts. *)
Definition calculateShoelaceArea (coordinates : list Point) : float :=
  if Nat.ltb (List.length coordinates) 3 then 0
  else
    let area := shoelaceSquareDegrees coordinates in
    let areaInSquareKm := area * 111.32 * 111.32 in
    areaInSquareKm * 100.

(** The same loop with the arithmetic of the real numbers instead of
    binary64: what the formula computes when no operation rounds. *)
Definition exactShoelaceSum (coordinates : list (Coordinate R)) : R :=
  shoelaceLoop 0%R Rplus Rminus Rmult coordinates.

Definition exactShoelaceArea (coordinates : list (Coordinate R)) : R :=
  if Nat.ltb (List.length coordinates) 3 then 0%R
  else (Rabs (exactShoelaceSum coordinates) / 2 * 111.32 * 111.32 * 100)%R.

(** [coordinates.slice(k).concat(coordinates.slice(0, k))]: the ring started
    at its [k]-th point. *)
Definition rotate {A : Type} (k : nat) (l : list A) : list A :=
  skipn k l ++ firstn k l.

(** ** Haversine-centroid triangulation *)

Section WithMath.
Variable M : MathLib.

(** [haversineDistance]; [R_km] is the source's [R]. *)
Definition haversineDistance (lat1 lon1 lat2 lon2 : float) : float :=
  let R_km := 6371 in
  let dLat := ((lat2 - lat1) * Math_PI) / 180 in
  let dLon := ((lon2 - lon1) * Math_PI) / 180 in
  let a :=
    Math_sin M (dLat / 2) * Math_sin M (dLat / 2) +
    Math_cos M ((lat1 * Math_PI) / 180) * Math_cos M ((lat2 * Math_PI) / 180)
      * Math_sin M (dLon / 2) * Math_sin M (dLon / 2) in
  let c := 2 * Math_atan2 M (Math_sqrt a) (Math_sqrt (1 - a)) in
  R_km * c.

(** [coordinates.reduce((sum, coord) => sum + coord.lat, 0) / coordinates.length] *)
Definition centroidOf (coordinates : list Point) : Point :=
  mkCoordinate
    (fold_left (fun sum coord => sum + lat coord) coordinates 0 / lengthF coordinates)
    (fold_left (fun sum coord => sum + lon coord) coordinates 0 / lengthF coordinates).

(** [s * (s - a) * (s - b) * (s - c)] for the triangle centroid, [pi], [pj]. *)
Definition heronRadicand (centroid pi pj : Point) : float :=
  let a := haversineDistance (lat centroid) (lon centroid) (lat pi) (lon pi) in
  let b := haversineDistance (lat centroid) (lon centroid) (lat pj) (lon pj) in
  let c := haversineDistance (lat pi) (lon pi) (lat pj) (lon pj) in
  let s := (a + b + c) / 2 in
  s * (s - a) * (s - b) * (s - c).

(** [Math.sqrt(Math.max(0, s * (s - a) * (s - b) * (s - c)))] *)
Definition triangleArea (centroid pi pj : Point) : float :=
  Math_sqrt (Math_max 0 (heronRadicand centroid pi pj)).

(** The [i]-th edge of the ring: [coordinates[i]] and [coordinates[(i+1) % n]]. *)
Definition edgeAt (coordinates : list Point) (i : nat) : Point * Point :=
  let d := pt 0 0 in
  (nth i coordinates d, nth (Nat.modulo (i + 1) (List.length coordinates)) coordinates d).

Definition haversineStep (coordinates : list Point) (centroid : Point)
    (area : float) (i : nat) : float :=
  let (pi, pj) := edgeAt coordinates i in
  area + triangleArea centroid pi pj.

(** [calculateHaversineArea] of area-calculations.ts. *)
Definition calculateHaversineArea (coordinates : list Point) : float :=
  if Nat.ltb (List.length coordinates) 3 then 0
  else
    let centroid := centroidOf coordinates in
    let area :=
      fold_left (haversineStep coordinates centroid)
                (seq 0 (List.length coordinates)) 0 in
    area * 100.

(** ** Convex hull (Graham scan) *)

(** The loop that finds [lowestPoint]; the model keeps the index of the
    array slot, which identifies the object ([a === lowestPoint] below
    compares references; the elements of the array are distinct objects). *)
Definition lowestStep (coordinates : list Point) (lowest : nat) (i : nat) : nat :=
  let d := pt 0 0 in
  let ci := nth i coordinates d in
  let lowestPoint := nth lowest coordinates d in
  if (lat ci <? lat lowestPoint)
     || ((lat ci =? lat lowestPoint) && (lon ci <? lon lowestPoint))
  then i else lowest.

Definition lowestIndex (coordinates : list Point) : nat :=
  fold_left (lowestStep coordinates) (seq 1 (List.length coordinates - 1)) 0%nat.

(** The comparator handed to [sort]. *)
Definition hullCompare (lowest : nat) (lowestPoint : Point) (a b : nat * Point) : float :=
  if Nat.eqb (fst a) lowest then -1
  else if Nat.eqb (fst b) lowest then 1
  else
    let angleA := Math_atan2 M (lat (snd a) - lat lowestPoint) (lon (snd a) - lon lowestPoint) in
    let angleB := Math_atan2 M (lat (snd b) - lat lowestPoint) (lon (snd b) - lon lowestPoint) in
    if angleA =? angleB then
      let distA := Math_sqrt (pow2 (lat (snd a) - lat lowestPoint) + pow2 (lon (snd a) - lon lowestPoint)) in
      let distB := Math_sqrt (pow2 (lat (snd b) - lat lowestPoint) + pow2 (lon (snd b) - lon lowestPoint)) in
      distA - distB
    else angleA - angleB.
End WithMath.

(** ** The algorithms page

    The page keeps private copies of [haversineDistance] (the same text) and
    of [calculateHaversineArea], whose Heron step is
    [Math.sqrt(s * (s - a) * (s - b) * (s - c))]: no [Math.max]. *)

Module AlgorithmsPage.

Definition triangleArea (M : MathLib) (centroid pi pj : Point) : float :=
  Math_sqrt (heronRadicand M centroid pi pj).

Definition haversineStep (M : MathLib) (coords : list Point) (centroid : Point)
    (area : float) (i : nat) : float :=
  let (pi, pj) := edgeAt coords i in
  area + triangleArea M centroid pi pj.

Definition calculateHaversineArea (M : MathLib) (coords : list Point) : float :=
  if Nat.ltb (List.length coords) 3 then 0
  else
    let centroid := centroidOf coords in
    let area :=
      fold_left (haversineStep M coords centroid) (seq 0 (List.length coords)) 0 in
    area * 100.

End AlgorithmsPage.

(** The anchor of a boundary: its [lowestPoint]. *)
Definition anchorOf (coordinates : list Point) : Point :=
  nth (lowestIndex coordinates) coordinates (pt 0 0).

(** [Array.prototype.sort(comparefn)]: the sort is stable and, for a
    consistent comparator, its result is the one of this insertion sort
    (an element moves in front of the first element it compares below). *)
Fixpoint insertSorted {A : Type} (comparefn : A -> A -> float) (x : A) (l : list A) : list A :=
  match l with
  | [] => [x]
  | y :: t => if comparefn x y <? 0 then x :: y :: t else y :: insertSorted comparefn x t
  end.

Definition Array_sort {A : Type} (comparefn : A -> A -> float) (l : list A) : list A :=
  fold_left (fun sorted x => insertSorted comparefn x sorted) l [].

(** [isLeftTurn] *)
Definition isLeftTurn (p1 p2 p3 : Point) : bool :=
  0 <? (lon p2 - lon p1) * (lat p3 - lat p1) - (lat p2 - lat p1) * (lon p3 - lon p1).

(** [while (hull.length >= 2 && !isLeftTurn(hull[hull.length - 2],
    hull[hull.length - 1], p)) hull.pop()]: each round pops one point, so
    [length hull] rounds are enough. *)
Fixpoint popWhile (fuel : nat) (hull : list Point) (p : Point) : list Point :=
  match fuel with
  | O => hull
  | S fuel' =>
      if Nat.leb 2 (List.length hull)
         && negb (isLeftTurn (nth (List.length hull - 2) hull p)
                             (nth (List.length hull - 1) hull p) p)
      then popWhile fuel' (removelast hull) p
      else hull
  end.

(** The body of the scan's [for] loop: pop, then [hull.push(sortedPoints[i])]. *)
Definition scanStep (hull : list Point) (p : Point) : list Point :=
  popWhile (List.length hull) hull p ++ [p].

(** [calculateConvexHull] *)
Definition calculateConvexHull (M : MathLib) (coordinates : list Point) : list Point :=
  if Nat.leb (List.length coordinates) 3 then coordinates
  else
    let d := pt 0 0 in
    let lowest := lowestIndex coordinates in
    let lowestPoint := nth lowest coordinates d in
    let sortedPoints :=
      map snd (Array_sort (hullCompare M lowest lowestPoint)
                          (combine (seq 0 (List.length coordinates)) coordinates)) in
    let hull := [nth 0 sortedPoints d; nth 1 sortedPoints d] in
    fold_left scanStep (skipn 2 sortedPoints) hull.

(** [calculateConvexHullArea] *)
Definition calculateConvexHullArea (M : MathLib) (coordinates : list Point) : float :=
  let hull := calculateConvexHull M coordinates in
  calculateShoelaceArea hull.

(** [calculateDelaunayArea]: the interior points are computed and only
    their number is looked at; both branches return the hull's area. *)
Definition calculateDelaunayArea (M : MathLib) (coordinates : list Point) : float :=
  if Nat.ltb (List.length coordinates) 3 then 0
  else
    let hull := calculateConvexHull M coordinates in
    let interiorPoints :=
      filter (fun point =>
                negb (existsb (fun hullPoint =>
                                 (lat hullPoint =? lat point) && (lon hullPoint =? lon point))
                              hull))
             coordinates in
    let totalArea := calculateShoelaceArea hull in
    if Nat.eqb (List.length interiorPoints) 0 then totalArea
    else totalArea.

(** [getAreaCalculationFunction]: a [switch] whose [default] shares the
    ["shoelace"] case. *)
Definition getAreaCalculationFunction (M : MathLib) (algorithm : string)
    : list Point -> float :=
  if String.eqb algorithm "haversine" then calculateHaversineArea M
  else if String.eqb algorithm "convexHull" then calculateConvexHullArea M
  else if String.eqb algorithm "delaunay" then calculateDelaunayArea M
  else calculateShoelaceArea.

(** ** Firmware: coordinate filter and on-device area *)

Module Firmware.

(** The sketch's globals [isFirstValidCoordinate], [lastLat], [lastLon]. *)
Record FilterState : Type := mkFilterState {
  isFirstValidCoordinate : bool;
  lastLat : float;
  lastLon : float }.

(** Their initialisers: [true], [0], [0]. *)
Definition initialFilter : FilterState := mkFilterState true 0 0.

Definition MIN_DISTANCE_CHANGE : float := 0.00001.

Definition fabs (x : float) : float := PrimFloat.abs x.

(** [calculateDistance]: [sqrt(pow(lat2 - lat1, 2) + pow(lon2 - lon1, 2))] *)
Definition calculateDistance (lat1 lon1 lat2 lon2 : float) : float :=
  PrimFloat.sqrt (pow2 (lat2 - lat1) + pow2 (lon2 - lon1)).

(** [isValidCoordinate]: the returned flag and the globals after the call. *)
Definition isValidCoordinate (st : FilterState) (lat lon : float) : bool * FilterState :=
  if (fabs lat <? 0.0001) && (fabs lon <? 0.0001) then (false, st)
  else if isFirstValidCoordinate st then (true, mkFilterState false lat lon)
  else
    let distance := calculateDistance (lastLat st) (lastLon st) lat lon in
    if distance <? MIN_DISTANCE_CHANGE then (false, st)
    else (true, mkFilterState false lat lon).

(** [calculateArea] over the global [coordinates] vector of pairs; here the
    cross term is formed first and added once:
    [area += (x1 * y2 - x2 * y1)]. *)
Definition areaStep (coordinates : list (float * float)) (area : float) (i : nat) : float :=
  let d := (0, 0) in
  let n := List.length coordinates in
  let x1 := fst (nth i coordinates d) in
  let y1 := snd (nth i coordinates d) in
  let x2 := fst (nth (Nat.modulo (i + 1) n) coordinates d) in
  let y2 := snd (nth (Nat.modulo (i + 1) n) coordinates d) in
  area + (x1 * y2 - x2 * y1).

Definition calculateArea (coordinates : list (float * float)) : float :=
  if Nat.ltb (List.length coordinates) 3 then 0
  else
    let area := fold_left (areaStep coordinates) (seq 0 (List.length coordinates)) 0 in
    let area := fabs area / 2 in
    let areaInSquareKm := area * 111.32 * 111.32 in
    let areaInHectares := areaInSquareKm * 100 in
    areaInHectares.

(** What [processGPSData] reads from the GPS decoder. *)
Record GpsReading : Type := mkGpsReading {
  locationValid : bool;
  gpsLat : float;
  gpsLng : float;
  speedKmph : float;
  courseValid : bool;
  courseDeg : float }.

(** The globals of the sketch that [processGPSData] updates. *)
Record Sketch : Type := mkSketch {
  coordinates : list (float * float);
  currentSpeed : float;
  currentHeading : float;
  tractorStatus : string;
  filterState : FilterState }.

Definition MIN_VALID_SPEED : float := 0.5.

Definition initialSketch : Sketch := mkSketch [] 0 0 "idle" initialFilter.

(** [processGPSData] without the display and the clock: speed, heading and
    status are updated, and a fix that passes [isValidCoordinate] is pushed
    to [coordinates] by [storeGPSCoordinates]. *)
Definition processGPSData (s : Sketch) (g : GpsReading) : Sketch :=
  if locationValid g then
    let lat := gpsLat g in
    let lon := gpsLng g in
    let speed := speedKmph g in
    let heading := if courseValid g then courseDeg g else currentHeading s in
    let status := if MIN_VALID_SPEED <=? speed then "moving"%string else "idle"%string in
    let (valid, st) := isValidCoordinate (filterState s) lat lon in
    if valid
    then mkSketch (coordinates s ++ [(lat, lon)]) speed heading status st
    else mkSketch (coordinates s) speed heading status st
  else s.

(** The sketch after a sequence of readings. *)
Definition runSketch (readings : list GpsReading) : Sketch :=
  fold_left processGPSData readings initialSketch.

End Firmware.

(** ** Dashboard: the unit toggle *)

Module Dashboard.

Inductive AreaUnit : Type := hectares | acres.


(** The integer [n] of [Number.prototype.toFixed(4)] for a finite [x >= 0]:
    the one for which [n / 10^4 - x] is closest to zero, the larger one of
    two.  [x] is [m * 2^e] exactly, so [n] is computed on integers. *)
Definition toFixedDigits (x : float) : Z :=
  match Prim2SF x with
  | S754_finite _ m e =>
      if (0 <=? e)%Z then (Zpos m * 2 ^ e * 10000)%Z
      else ((2 * Zpos m * 10000 + 2 ^ (- e)) / (2 * 2 ^ (- e)))%Z
  | _ => 0%Z
  end.

(** [Number.parseFloat(x.toFixed(4))].  NaN and the infinities print and
    parse as themselves.  From [2^39] on, neighbouring numbers are more than
    [1e-4] apart, so the printed decimal parses back to [x] (from [1e21] on
    [toFixed] prints [x] in full).  Below, [n < 2^53] and the nearest number
    to the decimal [n / 10^4] is the IEEE quotient of [n] by [10000]; the
    sign is printed in front (so [-0.00001] gives [-0]). *)
Definition parseFloat_toFixed4 (x : float) : float :=
  if is_nan x then x
  else if 549755813888 <=? PrimFloat.abs x then x
  else
    let n := toFixedDigits (PrimFloat.abs x) in
    let q := PrimFloat.of_uint63 (Uint63.of_Z n) / 10000 in
    if x <? 0 then - q else q.

Definition convertArea (newUnit : AreaUnit) (area : float) : float :=
  let conversionFactor :=
    match newUnit with acres => 2.47105 | hectares => 1 / 2.47105 end in
  parseFloat_toFixed4 (area * conversionFactor).



End Dashboard.

(** ** A reference Math library

    Used to run the model on concrete inputs.  The special values follow
    ECMA-262 (NaN and the infinities, signed zeros); elsewhere the functions
    are evaluated by argument reduction and a Taylor polynomial, accurate to
    a few units in the last place for arguments of ordinary size. *)

Module RefMath.

(** Nearest integer, for [|x| < 2^51]. *)
Definition rint (x : float) : float := (x + 6755399441055744) - 6755399441055744.

(** [1 - r2/(a(a+1)) * (1 - r2/((a+2)(a+3)) * ...)], [n] factors. *)
Fixpoint taylor (n : nat) (a r2 : float) : float :=
  match n with
  | O => 1
  | S m => 1 - r2 / (a * (a + 1)) * taylor m (a + 2) r2
  end.

Definition sinPoly (r : float) : float := r * taylor 10 2 (r * r).
Definition cosPoly (r : float) : float := taylor 10 1 (r * r).

Definition pio2_hi : float := 1.5707963267948966.
Definition pio2_lo : float := 6.123233995736766e-17.

(** [x = k * (pi/2) + r] with [|r| <= pi/4]; returns [k mod 4] (as one of
    -2 .. 2) and [r]. *)
Definition reduce (x : float) : float * float :=
  let k := rint (x / pio2_hi) in
  let r := (x - k * pio2_hi) - k * pio2_lo in
  (k - 4 * rint (k / 4), r).

Definition sin (x : float) : float :=
  if negb (is_finite x) then nan
  else if x =? 0 then x
  else
    let (q, r) := reduce x in
    if q =? 0 then sinPoly r
    else if q =? 1 then cosPoly r
    else if q =? -1 then - cosPoly r
    else - sinPoly r.

Definition cos (x : float) : float :=
  if negb (is_finite x) then nan
  else
    let (q, r) := reduce x in
    if q =? 0 then cosPoly r
    else if q =? 1 then - sinPoly r
    else if q =? -1 then sinPoly r
    else - cosPoly r.

(** [1/k - t2 * (1/(k+2) - t2 * ...)] *)
Fixpoint atanSeries (n : nat) (k t2 : float) : float :=
  match n with
  | O => 1 / k
  | S m => 1 / k - t2 * atanSeries m (k + 2) t2
  end.

(** [atan t = 2 * atan (t / (1 + sqrt (1 + t^2)))] *)
Definition halve (t : float) : float := t / (1 + PrimFloat.sqrt (1 + t * t)).

(** For [0 <= t <= 1]. *)
Definition atanUnit (t : float) : float :=
  let u := halve (halve (halve t)) in
  8 * (u * atanSeries 12 1 (u * u)).

(** For [t >= 0], infinity included. *)
Definition atanPos (t : float) : float :=
  if t <=? 1 then atanUnit t else pio2_hi - atanUnit (1 / t).

Definition atan2 (y x : float) : float :=
  if is_nan y || is_nan x then nan
  else
    let negY := (y <? 0) || isNegZero y in
    let negX := (x <? 0) || isNegZero x in
    let a :=
      if y =? 0 then (if negX then Math_PI else 0)
      else if x =? 0 then pio2_hi
      else if is_infinity y && is_infinity x
           then (if negX then 3 * (pio2_hi / 2) else pio2_hi / 2)
      else if negX then Math_PI - atanPos (PrimFloat.abs y / PrimFloat.abs x)
      else atanPos (PrimFloat.abs y / PrimFloat.abs x) in
    if negY then - a else a.

Definition lib : MathLib := mkMathLib sin cos atan2.

End RefMath.

(** ** Boundaries used in the examples *)

(** The square of the specification: (1,1), (1,2), (2,2), (2,1). *)
Definition unitSquare : list Point := [pt 1 1; pt 1 2; pt 2 2; pt 2 1].

(** The same square walked twice. *)
Definition squareTwice : list Point := unitSquare ++ unitSquare.

(** Three fixes of a field in southern India, four decimals each. *)
Definition fieldTriangle : list Point :=
  [pt 12.9728 78.951; pt 12.97 78.95; pt 12.97 78.952].

(** Three points on one meridian, so far north that their latitudes add up
    to more than the largest binary64 number. *)
Definition farTriple : list Point := [pt 1e308 0; pt 1e308 0; pt 1e308 0].

(** Four fixes on the meridian 116 E: a straight pass of the vehicle. *)
Definition meridianTrack : list Point :=
  [pt 5.028 116; pt 5.05 116; pt 5.026 116; pt 5.047 116].


(** The square as the firmware stores it. *)
Definition unitSquarePairs : list (float * float) := [(1, 1); (1, 2); (2, 2); (2, 1)].

(** The filter state after the first fix (10.000005, 20.000003) was accepted. *)
Definition afterFirstFix : Firmware.FilterState :=
  snd (Firmware.isValidCoordinate Firmware.initialFilter 10.000005 20.000003).

(** What the examples need of the host's [Math.atan2]: ECMA-262 fixes
    [atan2(+0, +0)] and [atan2(+0, 1)] to [+0]; at (1, 1) and (1, 0) the
    result is the binary64 number nearest to pi/4 and pi/2. *)
Definition StandardAngles (M : MathLib) : Prop :=
  Math_atan2 M 0 0 = 0
  /\ Math_atan2 M 0 1 = 0
  /\ Math_atan2 M 1 1 = 0.7853981633974483
  /\ Math_atan2 M 1 0 = 1.5707963267948966.

(** ** The shoelace sum as a sum along the closed ring (used in proofs) *)

(** The term the loop adds for the edge from [a] to [b]. *)
Definition crossTerm (a b : Coordinate R) : R :=
  (lat a * lon b - lat b * lon a)%R.

(** The terms of the consecutive pairs of a path. *)
Fixpoint pathSum (l : list (Coordinate R)) : R :=
  match l with
  | a :: ((b :: _) as t) => (crossTerm a b + pathSum t)%R
  | _ => 0%R
  end.

(** The path closed by its first point. *)
Definition ringSum (l : list (Coordinate R)) : R :=
  match l with
  | [] => 0%R
  | a :: _ => pathSum (l ++ [a])
  end.

(** ** Radicands of the triangle fan, and sign-definite numbers (used in proofs) *)

(** The radicand of the [i]-th triangle of [calculateHaversineArea]. *)
Definition radicandAt (M : MathLib) (coordinates : list Point) (i : nat) : float :=
  heronRadicand M (centroidOf coordinates)
                (fst (edgeAt coordinates i)) (snd (edgeAt coordinates i)).

(** Every coordinate is a finite number. *)
Definition finiteBoundary (coordinates : list Point) : bool :=
  forallb (fun p => is_finite (lat p) && is_finite (lon p)) coordinates.

(** A binary64 value that is zero, positive or [+infinity]: not NaN. *)
Definition sfNonneg (x : spec_float) : Prop :=
  match x with
  | S754_nan => False
  | S754_infinity s => s = false
  | S754_finite s _ _ => s = false
  | S754_zero _ => True
  end.

(** Proves [Math_atan2 M y x = Math_atan2 M' y x] at a concrete offset from
    the values the hypotheses give. *)
Ltac atan2_at_offsets H00 H01 H11 H10 :=
  cbn [lat lon pt];
  match goal with
  | |- Math_atan2 ?M ?y ?x = Math_atan2 ?M' ?y ?x =>
      let y' := eval vm_compute in y in
      let x' := eval vm_compute in x in
      change (Math_atan2 M y' x' = Math_atan2 M' y' x')
  end;
  rewrite ?H00, ?H01, ?H11, ?H10; vm_compute; reflexivity.

(** The filter's cursor follows the stored boundary: nothing stored and the
    first-fix flag still set, or the flag cleared and the cursor on the last
    stored point. *)
Definition cursorFollows (s : Firmware.Sketch) : Prop :=
  (Firmware.coordinates s = [] /\ Firmware.filterState s = Firmware.initialFilter)
  \/ (exists pre la lo,
        Firmware.coordinates s = pre ++ [(la, lo)]
        /\ Firmware.filterState s = Firmware.mkFilterState false la lo).

(** ** The stored boundary of the sketch (used in proofs) *)

(** The fix a reading carries. *)
Definition fixOf (g : Firmware.GpsReading) : float * float :=
  (Firmware.gpsLat g, Firmware.gpsLng g).

(** The sentinel test of [isValidCoordinate], on a stored pair. *)
Definition insideSentinel (c : float * float) : bool :=
  (Firmware.fabs (fst c) <? 0.0001) && (Firmware.fabs (snd c) <? 0.0001).

(** No stored point is below [MIN_DISTANCE_CHANGE] from the one stored
    before it. *)
Fixpoint spaced (l : list (float * float)) : Prop :=
  match l with
  | a :: ((b :: _) as t) =>
      (Firmware.calculateDistance (fst a) (snd a) (fst b) (snd b)
       <? Firmware.MIN_DISTANCE_CHANGE) = false
      /\ spaced t
  | _ => True
  end.

(** [l1] is [l2] with some elements left out, the order kept. *)
Inductive Subseq {A : Type} : list A -> list A -> Prop :=
| Subseq_nil : Subseq [] []
| Subseq_skip : forall x l1 l2, Subseq l1 l2 -> Subseq l1 (x :: l2)
| Subseq_take : forall x l1 l2, Subseq l1 l2 -> Subseq (x :: l1) (x :: l2).

(** The fixes of the readings with a valid location. *)
Definition validFixes (readings : list Firmware.GpsReading) : list (float * float) :=
  map fixOf (filter Firmware.locationValid readings).

(** A number that is not below zero: zero, positive, [+infinity] or NaN. *)
Definition sfNotNegative (x : spec_float) : Prop :=
  match x with
  | S754_nan | S754_zero _ => True
  | S754_infinity s | S754_finite s _ _ => s = false
  end.

(** ** The pages that compute areas *)

(** [Number(x.toFixed(4))], which the algorithms and upload pages use,
    reads the text [toFixed] prints as [Number.parseFloat] does. *)
Definition Number_toFixed4 (x : float) : float := Dashboard.parseFloat_toFixed4 x.

(** [!x] for a [number | null]: null, [0], [-0] and NaN are falsy. *)
Definition falsy (x : option float) : bool :=
  match x with
  | None => true
  | Some v => is_nan v || (v =? 0)
  end.

(** [x || null] *)
Definition orNull (x : option float) : option float :=
  if falsy x then None else x.

(** The dashboard, [Home] of app/page.tsx. *)
Module Home.

(** The filter of [fetchData]: fixes at (0, 0) or very close are dropped. *)
Definition filterCoordinates (coordinates : list Point) : list Point :=
  filter (fun coord => negb ((Math_abs (lat coord) <? 0.0001)
                             && (Math_abs (lon coord) <? 0.0001)))
         coordinates.

(** One round of the loop of [calculateArea], over [formattedCoords]. *)
Definition areaStep (formattedCoords : list (float * float)) (calculatedArea : float)
    (i : nat) : float :=
  let d := (0, 0) in
  let j := Nat.modulo (i + 1) (List.length formattedCoords) in
  (calculatedArea + fst (nth i formattedCoords d) * snd (nth j formattedCoords d))
  - fst (nth j formattedCoords d) * snd (nth i formattedCoords d).

(** [calculateArea]: the error message, or the rounded area that becomes
    [webArea] and is sent to the server. *)
Definition calculateArea (filteredCoordinates : list Point) (areaUnit : Dashboard.AreaUnit)
    : string + float :=
  if Nat.ltb (List.length filteredCoordinates) 3
  then inl "Need at least 3 valid coordinates to calculate area"%string
  else
    let formattedCoords := map (fun coord => (lat coord, lon coord)) filteredCoordinates in
    let calculatedArea :=
      fold_left (areaStep formattedCoords) (seq 0 (List.length formattedCoords)) 0 in
    let calculatedArea := Math_abs calculatedArea / 2 in
    let areaInSquareKm := calculatedArea * 111.32 * 111.32 in
    let finalArea := areaInSquareKm * 100 in
    let finalArea :=
      match areaUnit with
      | Dashboard.acres => finalArea * 2.47105
      | Dashboard.hectares => finalArea
      end in
    let roundedArea := Dashboard.parseFloat_toFixed4 finalArea in
    inr roundedArea.

End Home.

(** The algorithms page: [calculateAreas] and [getAccuracyComparison]. *)
Module Comparison.

Record Field : Type := mkField {
  esp32_area : option float;
  web_area : option float }.

Record AreaResults : Type := mkAreaResults {
  shoelace : option float;
  haversine : option float;
  esp32 : option float;
  web : option float }.

(** The loop of [calculateAreas]: the text of the utilities' loop. *)
Definition shoelaceStep (coords : list Point) (shoelaceArea : float) (i : nat) : float :=
  let d := pt 0 0 in
  let j := Nat.modulo (i + 1) (List.length coords) in
  (shoelaceArea + lat (nth i coords d) * lon (nth j coords d))
  - lat (nth j coords d) * lon (nth i coords d).

(** [calculateAreas]: the error message, or the new [areaResults];
    [field] is the selected field, if it was found. *)
Definition calculateAreas (M : MathLib) (coords : list Point) (field : option Field)
    : string + AreaResults :=
  if Nat.ltb (List.length coords) 3
  then inl "Need at least 3 coordinates to calculate area"%string
  else
    let shoelaceArea := fold_left (shoelaceStep coords) (seq 0 (List.length coords)) 0 in
    let shoelaceArea := Math_abs shoelaceArea / 2 in
    let shoelaceAreaInSqKm := shoelaceArea * 111.32 * 111.32 in
    let shoelaceAreaInHectares := shoelaceAreaInSqKm * 100 in
    let haversineAreaInHectares := AlgorithmsPage.calculateHaversineArea M coords in
    inr (mkAreaResults
           (Some (Number_toFixed4 shoelaceAreaInHectares))
           (Some (Number_toFixed4 haversineAreaInHectares))
           (match field with Some f => orNull (esp32_area f) | None => None end)
           (match field with Some f => orNull (web_area f) | None => None end)).

(** One row of the comparison: [{ value, diff }]. *)
Record Row : Type := mkRow { value : float; diff : float }.

Record Rows : Type := mkRows { webRow : Row; shoelaceRow : Row; haversineRow : Row }.

Definition rowOf (v reference : float) : Row :=
  mkRow v (((v - reference) / reference) * 100).

(** [getAccuracyComparison]: [None] is the [null] it returns when a value
    is missing; past the test the four values are numbers. *)
Definition getAccuracyComparison (areaResults : AreaResults) : option Rows :=
  if falsy (esp32 areaResults) || falsy (web areaResults)
     || falsy (shoelace areaResults) || falsy (haversine areaResults)
  then None
  else
    match esp32 areaResults, web areaResults, shoelace areaResults, haversine areaResults with
    | Some reference, Some w, Some s, Some h =>
        Some (mkRows (rowOf w reference) (rowOf s reference) (rowOf h reference))
    | _, _, _, _ => None
    end.

End Comparison.

(** The upload page. *)
Module UploadPage.

(** [calculateArea]: the new [calculatedArea] and [error]. *)
Definition calculateArea (M : MathLib) (coords : list Point) (algorithm : string)
    : option float * option string :=
  if Nat.ltb (List.length coords) 3
  then (None, Some "Need at least 3 coordinates to calculate area"%string)
  else
    let calculateAreaFn := getAreaCalculationFunction M algorithm in
    let area := calculateAreaFn coords in
    (Some (Number_toFixed4 area), None).

End UploadPage.

(** ** The names shown for the algorithms *)

(** [getAlgorithmDisplayName] *)
Definition getAlgorithmDisplayName (algorithm : string) : string :=
  if String.eqb algorithm "haversine" then "Haversine Method"
  else if String.eqb algorithm "convexHull" then "Convex Hull"
  else if String.eqb algorithm "delaunay" then "Delaunay Triangulation"
  else "Shoelace Formula".

(** [getAlgorithmDescription] *)
Definition getAlgorithmDescription (algorithm : string) : string :=
  if String.eqb algorithm "haversine"
  then "Accounts for Earth's curvature using great-circle distances between points."
  else if String.eqb algorithm "convexHull"
  then "Creates the smallest convex polygon containing all points, useful for irregular shapes."
  else if String.eqb algorithm "delaunay"
  then "Divides the area into triangles for more precise calculation of complex shapes."
  else "Standard mathematical algorithm for calculating the area of a polygon using coordinate pairs.".

(** [getAlgorithmTitle] of the visualization component. *)
Definition getAlgorithmTitle (algo : string) : string :=
  if String.eqb algo "haversine" then "Haversine Method"
  else if String.eqb algo "convexHull" then "Convex Hull"
  else if String.eqb algo "delaunay" then "Delaunay Triangulation"
  else "Shoelace Formula".

(** Areas of a field whose web area equals the device's. *)
Definition equalAreas : Comparison.AreaResults :=
  Comparison.mkAreaResults (Some 1.25) (Some 1.3) (Some 1.2) (Some 1.2).

(** ** The sorted points of the scan (used in proofs) *)

(** If the slot [lowest] is in the list, it is the first element. *)
Definition lowestFirst (lowest : nat) (l : list (nat * Point)) : Prop :=
  forall h t, l = h :: t -> (exists y, In y l /\ fst y = lowest) -> fst h = lowest.

(** ** GeoJSON export and import

    The download component returns the text [JSON.stringify] writes and the
    uploader reads a text with [JSON.parse].  A JSON text is represented
    here by the value it denotes, the one [JSON.parse] returns for it; its
    numbers are the numbers a text can carry. *)

Module GeoJson.

(** An entry of a position in the text: a number or [null]. *)
Inductive Json : Type :=
| JNull : Json
| JNumber : float -> Json.

(** What [JSON.stringify] writes for a number, as [JSON.parse] reads it
    back.  NaN and the infinities are written [null].  Every other number
    is written with the digits of Number::toString, which read back as the
    same number (ECMA-262, Number::toString, note 2), but for [-0], which
    is written [0]. *)
Definition JSON_number (x : float) : Json :=
  if is_nan x || is_infinity x then JNull
  else if x =? 0 then JNumber 0
  else JNumber x.

(** [{ name, pointCount }]; a property may be missing. *)
Record Properties : Type := mkProperties {
  name : option string;
  pointCount : option nat }.

(** [{ type, coordinates }]: a list of rings, a ring a list of positions,
    a position an array of entries. *)
Record Geometry : Type := mkGeometry {
  geometryType : option string;
  rings : option (list (list (list Json))) }.

Record Feature : Type := mkFeature {
  featureType : option string;
  properties : option Properties;
  geometry : option Geometry }.

Record Collection : Type := mkCollection {
  collectionType : option string;
  features : option (list Feature) }.

(** [formatCoordinatesAsGeoJSON]: the text [JSON.stringify(geoJSON, null, 2)]
    returns; [None] when [coordinates[0]] is undefined and reading its
    [lon] throws. *)
Definition formatCoordinatesAsGeoJSON (coordinates : list Point) (fieldName : string)
    : option Collection :=
  match coordinates with
  | [] => None
  | first :: _ =>
      Some (mkCollection (Some "FeatureCollection"%string)
              (Some [mkFeature (Some "Feature"%string)
                       (Some (mkProperties (Some fieldName)
                                           (Some (List.length coordinates))))
                       (Some (mkGeometry (Some "Polygon"%string)
                                (Some [map (fun coord => [JSON_number (lon coord);
                                                          JSON_number (lat coord)])
                                           coordinates
                                       ++ [[JSON_number (lon first);
                                            JSON_number (lat first)]]])))]))
  end.

(** A coordinate as the parser builds it: [coord[1]] and [coord[0]], each
    undefined ([None]) when the position is too short. *)
Definition positionToCoordinate (coord : list Json) : Coordinate (option Json) :=
  mkCoordinate (nth_error coord 1) (nth_error coord 0).

(** [parseGeoJsonFile] on a text: the coordinates and the field name, or
    [None] when it throws "Failed to parse GeoJSON file". *)
Definition parseGeoJsonFile (text : Collection)
    : option (list (Coordinate (option Json)) * option string) :=
  let geojson := text in
  match features geojson with
  | Some (feature :: _) =>
      let fieldName :=
        match properties feature with
        | Some props =>
            match name props with
            | Some n => if String.eqb n "" then None else Some n
            | None => None
            end
        | None => None
        end in
      match geometry feature with
      | Some g =>
          match geometryType g, rings g with
          | Some ty, Some (ring :: _) =>
              if String.eqb ty "Polygon"
              then Some (removelast (map positionToCoordinate ring), fieldName)
              else None
          | _, _ => None
          end
      | None => None
      end
  | _ => None
  end.

(** A number the text carries as it is: finite and not [-0]. *)
Definition survivesJson (x : float) : bool :=
  negb (is_nan x || is_infinity x) && negb (isNegZero x).

End GeoJson.

(** ** The sensor-data route: what a POST does to the in-memory store *)

Module SensorData.

Record TractorInfo : Type := mkTractorInfo {
  speed : float;
  heading : float;
  status : string }.

(** The module-level variables of the route. *)
Record Store : Type := mkStore {
  storedCoordinates : list Point;
  esp32CalculatedArea : option float;
  lastCalculatedArea : option float;
  fieldName : string;
  currentFieldId : option string;
  tractorInfo : TractorInfo }.

Definition initialStore : Store :=
  mkStore [] None None "Unnamed Field" None (mkTractorInfo 0 0 "idle").

(** A request body whose fields, when present, have the types the device
    sends: numbers, strings, an array of coordinates. *)
Record Body : Type := mkBody {
  lat_ : option float;
  lon_ : option float;
  speed_ : option float;
  heading_ : option float;
  status_ : option string;
  area_ : option float;
  coordinates_ : option (list Point);
  fieldName_ : option string }.

(** [Math.abs(lat) < 0.0001 && Math.abs(lon) < 0.0001] *)
Definition nearOrigin (la lo : float) : bool :=
  (Math_abs la <? 0.0001) && (Math_abs lo <? 0.0001).

(** The store after [POST]: a live coordinate is pushed unless it is near
    the origin; an area with coordinates replaces the stored ones by those
    that are not near the origin, if any is left.  The database is written
    after the store and never read back here. *)
Definition POST (st : Store) (data : Body) : Store :=
  match lat_ data, lon_ data with
  | Some la, Some lo =>
      if nearOrigin la lo then st
      else
        mkStore (storedCoordinates st ++ [pt la lo])
                (esp32CalculatedArea st) (lastCalculatedArea st)
                (fieldName st) (currentFieldId st)
                (mkTractorInfo
                   (match speed_ data with Some v => v | None => speed (tractorInfo st) end)
                   (match heading_ data with Some v => v | None => heading (tractorInfo st) end)
                   (match status_ data with Some v => v | None => status (tractorInfo st) end))
  | _, _ =>
      match area_ data, coordinates_ data with
      | Some area, Some coordinates =>
          let filteredCoordinates :=
            filter (fun coord => negb (nearOrigin (lat coord) (lon coord))) coordinates in
          mkStore (if Nat.ltb 0 (List.length filteredCoordinates)
                   then filteredCoordinates else storedCoordinates st)
                  (Some area) (lastCalculatedArea st)
                  (match fieldName_ data with
                   | Some n => if String.eqb n "" then fieldName st else n
                   | None => fieldName st
                   end)
                  (currentFieldId st) (tractorInfo st)
      | _, _ => st
      end
  end.

End SensorData.

(** ** The name of a downloaded file *)

(** A string as its UTF-16 code units. *)
Definition CodeUnits : Type := list nat.

(** Is the unit one of [0-9A-Za-z]?  (The class [a-z0-9] with the flag
    [i], which matches no unit above 127.) *)
Definition isAlphanumeric (c : nat) : bool :=
  (Nat.leb 48 c && Nat.leb c 57) || (Nat.leb 65 c && Nat.leb c 90)
  || (Nat.leb 97 c && Nat.leb c 122).

(** [toLowerCase] on a unit that is alphanumeric or ["_"]. *)
Definition toLowerUnit (c : nat) : nat :=
  if Nat.leb 65 c && Nat.leb c 90 then (c + 32)%nat else c.

(** [fieldName.replace(/[^a-z0-9]/gi, "_").toLowerCase()] of [downloadFile]. *)
Definition sanitizedFieldName (fieldName : CodeUnits) : CodeUnits :=
  map toLowerUnit (map (fun c => if isAlphanumeric c then c else 95%nat) fieldName).

(** The code units of a string of ASCII characters. *)
Definition codeUnitsOf (s : string) : CodeUnits :=
  map Ascii.nat_of_ascii (String.list_ascii_of_string s).

(** A unit of [0-9a-z_]. *)
Definition isSafeFileUnit (c : nat) : bool :=
  (Nat.leb 48 c && Nat.leb c 57) || (Nat.leb 97 c && Nat.leb c 122) || Nat.eqb c 95.

(** Turns comparisons of naturals written with [Nat.leb] and [Nat.eqb],
    in the goal and the hypotheses, into arithmetic. *)
Ltac leb_to_arith :=
  repeat match goal with
         | H : _ |- _ =>
             progress rewrite ?andb_true_iff, ?orb_true_iff, ?andb_false_iff, ?orb_false_iff,
               ?Nat.leb_le, ?Nat.leb_gt, ?Nat.eqb_eq, ?Nat.eqb_neq in H
         end;
  repeat (progress rewrite ?andb_true_iff, ?orb_true_iff, ?andb_false_iff, ?orb_false_iff,
            ?Nat.leb_le, ?Nat.leb_gt, ?Nat.eqb_eq, ?Nat.eqb_neq).

(** A number that is not below zero and is not the negative zero: [+0],
    positive, [+infinity] or NaN.  The running sum of the triangle fan is
    one of these. *)
Definition sfPlus (x : spec_float) : Prop :=
  match x with
  | S754_nan => True
  | S754_zero s | S754_infinity s | S754_finite s _ _ => s = false
  end.

(** ** The convex hull over any arithmetic

    [calculateConvexHull] once more, with the number type, its operations
    and comparisons, and the host's [atan2] and [sqrt] as parameters: the
    text is the one of the definitions above.  At binary64 it is
    [calculateConvexHull] itself; at the real numbers it is what the code
    computes when no operation rounds. *)

Section HullOver.
Context {num : Type}.
Variables (zero one minusOne : num).
Variables (add sub mul : num -> num -> num).
Variables (ltb eqb : num -> num -> bool).
Variables (atan2 : num -> num -> num) (sqrt : num -> num).

Definition lowestStepOver (coordinates : list (Coordinate num)) (lowest : nat) (i : nat) : nat :=
  let d := mkCoordinate zero zero in
  let ci := nth i coordinates d in
  let lowestPoint := nth lowest coordinates d in
  if ltb (lat ci) (lat lowestPoint)
     || (eqb (lat ci) (lat lowestPoint) && ltb (lon ci) (lon lowestPoint))
  then i else lowest.

Definition lowestIndexOver (coordinates : list (Coordinate num)) : nat :=
  fold_left (lowestStepOver coordinates) (seq 1 (List.length coordinates - 1)) 0%nat.

Definition hullCompareOver (lowest : nat) (lowestPoint : Coordinate num)
    (a b : nat * Coordinate num) : num :=
  if Nat.eqb (fst a) lowest then minusOne
  else if Nat.eqb (fst b) lowest then one
  else
    let angleA := atan2 (sub (lat (snd a)) (lat lowestPoint)) (sub (lon (snd a)) (lon lowestPoint)) in
    let angleB := atan2 (sub (lat (snd b)) (lat lowestPoint)) (sub (lon (snd b)) (lon lowestPoint)) in
    if eqb angleA angleB then
      let distA := sqrt (add (mul (sub (lat (snd a)) (lat lowestPoint)) (sub (lat (snd a)) (lat lowestPoint)))
                             (mul (sub (lon (snd a)) (lon lowestPoint)) (sub (lon (snd a)) (lon lowestPoint)))) in
      let distB := sqrt (add (mul (sub (lat (snd b)) (lat lowestPoint)) (sub (lat (snd b)) (lat lowestPoint)))
                             (mul (sub (lon (snd b)) (lon lowestPoint)) (sub (lon (snd b)) (lon lowestPoint)))) in
      sub distA distB
    else sub angleA angleB.

Fixpoint insertSortedOver {A : Type} (comparefn : A -> A -> num) (x : A) (l : list A) : list A :=
  match l with
  | [] => [x]
  | y :: t =>
      if ltb (comparefn x y) zero then x :: y :: t
      else y :: insertSortedOver comparefn x t
  end.

Definition Array_sortOver {A : Type} (comparefn : A -> A -> num) (l : list A) : list A :=
  fold_left (fun sorted x => insertSortedOver comparefn x sorted) l [].

Definition isLeftTurnOver (p1 p2 p3 : Coordinate num) : bool :=
  ltb zero (sub (mul (sub (lon p2) (lon p1)) (sub (lat p3) (lat p1)))
                (mul (sub (lat p2) (lat p1)) (sub (lon p3) (lon p1)))).

Fixpoint popWhileOver (fuel : nat) (hull : list (Coordinate num)) (p : Coordinate num)
    : list (Coordinate num) :=
  match fuel with
  | O => hull
  | S fuel' =>
      if Nat.leb 2 (List.length hull)
         && negb (isLeftTurnOver (nth (List.length hull - 2) hull p)
                                 (nth (List.length hull - 1) hull p) p)
      then popWhileOver fuel' (removelast hull) p
      else hull
  end.

Definition scanStepOver (hull : list (Coordinate num)) (p : Coordinate num)
    : list (Coordinate num) :=
  popWhileOver (List.length hull) hull p ++ [p].

(** [sortedPoints] *)
Definition sortedPointsOver (coordinates : list (Coordinate num)) : list (Coordinate num) :=
  let d := mkCoordinate zero zero in
  let lowest := lowestIndexOver coordinates in
  let lowestPoint := nth lowest coordinates d in
  map snd (Array_sortOver (hullCompareOver lowest lowestPoint)
                          (combine (seq 0 (List.length coordinates)) coordinates)).

Definition convexHullOver (coordinates : list (Coordinate num)) : list (Coordinate num) :=
  if Nat.leb (List.length coordinates) 3 then coordinates
  else
    let d := mkCoordinate zero zero in
    let sortedPoints := sortedPointsOver coordinates in
    let hull := [nth 0 sortedPoints d; nth 1 sortedPoints d] in
    fold_left scanStepOver (skipn 2 sortedPoints) hull.

End HullOver.

Definition Reqb (a b : R) : bool := if Req_dec_T a b then true else false.

(** [Math.atan2(y, x)] as the function it approximates: the angle of the
    point (x, y), between [-PI] and [PI]. *)
Definition Ratan2 (y x : R) : R :=
  if Rlt_dec 0 x then atan (y / x)
  else if Rlt_dec x 0 then
         if Rle_dec 0 y then (atan (y / x) + PI)%R else (atan (y / x) - PI)%R
       else if Rlt_dec 0 y then (PI / 2)%R
            else if Rlt_dec y 0 then (- PI / 2)%R else 0%R.

(** The scan and the hull over the real numbers, for any angle and root
    functions. *)
Section ExactHull.
Variables (atan2 : R -> R -> R) (root : R -> R).






End ExactHull.



(** ** A boundary over the real numbers, and a convex field *)




(** ** Values of binary64 numbers and rounding to nearest (used in proofs) *)












(** ** The order of the scan over the real numbers (used in proofs) *)









(** * Properties *)

(** ** Insufficient points *)

Lemma short_boundary_ltb (A : Type) (l : list A) :
  (List.length l < 3)%nat -> Nat.ltb (List.length l) 3 = true.
Proof. intro H. apply Nat.ltb_lt. exact H. Qed.

Lemma convexHull_short (M : MathLib) (coordinates : list Point) :
  (List.length coordinates <= 3)%nat -> calculateConvexHull M coordinates = coordinates.
Proof.
  intro H. unfold calculateConvexHull.
  apply Nat.leb_le in H. rewrite H. reflexivity.
Qed.

Lemma shoelace_short (coordinates : list Point) :
  (List.length coordinates < 3)%nat -> calculateShoelaceArea coordinates = 0.
Proof.
  intro H. unfold calculateShoelaceArea.
  rewrite (short_boundary_ltb _ _ H). reflexivity.
Qed.

(** C1.  A boundary of fewer than three points has area [0] under each of
    the four algorithms, called directly or through the dispatcher with
    their four names. *)
Theorem insufficient_points_zero (M : MathLib) (coordinates : list Point) :
  (List.length coordinates < 3)%nat ->
  (calculateShoelaceArea coordinates = 0
   /\ calculateHaversineArea M coordinates = 0
   /\ calculateConvexHullArea M coordinates = 0
   /\ calculateDelaunayArea M coordinates = 0)
  /\ (forall algorithm : string,
        In algorithm ["shoelace"; "haversine"; "convexHull"; "delaunay"]%string ->
        getAreaCalculationFunction M algorithm coordinates = 0).
Proof.
  intro H.
  assert (Hs : calculateShoelaceArea coordinates = 0) by (apply shoelace_short; exact H).
  assert (Hh : calculateHaversineArea M coordinates = 0).
  { unfold calculateHaversineArea. rewrite (short_boundary_ltb _ _ H). reflexivity. }
  assert (Hc : calculateConvexHullArea M coordinates = 0).
  { unfold calculateConvexHullArea. rewrite convexHull_short by lia. exact Hs. }
  assert (Hd : calculateDelaunayArea M coordinates = 0).
  { unfold calculateDelaunayArea. rewrite (short_boundary_ltb _ _ H). reflexivity. }
  split; [ repeat split; assumption | ].
  intros algorithm Hin. simpl in Hin.
  destruct Hin as [<- | [<- | [<- | [<- | []]]]]; cbn; assumption.
Qed.

Lemma insufficient_points_zero_witness :
  calculateHaversineArea RefMath.lib [pt 1 1; pt 1 2] = 0
  /\ calculateDelaunayArea RefMath.lib [] = 0.
Proof.
  split.
  - apply (insufficient_points_zero RefMath.lib [pt 1 1; pt 1 2]). simpl. lia.
  - apply (insufficient_points_zero RefMath.lib []). simpl. lia.
Defined.

(** ** The hull fallback *)

(** C4.  On every boundary the "delaunay" algorithm returns the value of
    the convex-hull algorithm: the shoelace area of the hull, whatever the
    interior points are. *)
Theorem delaunay_is_hull_area (M : MathLib) (coordinates : list Point) :
  calculateDelaunayArea M coordinates = calculateConvexHullArea M coordinates
  /\ calculateDelaunayArea M coordinates
     = calculateShoelaceArea (calculateConvexHull M coordinates).
Proof.
  assert (E : calculateDelaunayArea M coordinates
              = calculateShoelaceArea (calculateConvexHull M coordinates)).
  { unfold calculateDelaunayArea.
    destruct (Nat.ltb (List.length coordinates) 3) eqn:Hlen.
    - apply Nat.ltb_lt in Hlen.
      rewrite convexHull_short by lia.
      symmetry. apply shoelace_short. exact Hlen.
    - cbv zeta.
      destruct (Nat.eqb _ 0); reflexivity. }
  split; [ | exact E ].
  rewrite E. reflexivity.
Qed.

(** ** The dispatcher *)

(** C10.  Every name other than "haversine", "convexHull" and "delaunay"
    selects the shoelace function, so the request computes the shoelace
    area of its boundary. *)
Theorem unknown_algorithm_is_shoelace (M : MathLib) (algorithm : string) :
  algorithm <> "haversine"%string ->
  algorithm <> "convexHull"%string ->
  algorithm <> "delaunay"%string ->
  getAreaCalculationFunction M algorithm = calculateShoelaceArea
  /\ forall coords, getAreaCalculationFunction M algorithm coords
                    = calculateShoelaceArea coords.
Proof.
  intros Hh Hc Hd.
  assert (E : getAreaCalculationFunction M algorithm = calculateShoelaceArea).
  { unfold getAreaCalculationFunction.
    apply String.eqb_neq in Hh, Hc, Hd.
    rewrite Hh, Hc, Hd. reflexivity. }
  split; [ exact E | intro coords; rewrite E; reflexivity ].
Qed.

Lemma unknown_algorithm_is_shoelace_witness :
  getAreaCalculationFunction RefMath.lib "" = calculateShoelaceArea
  /\ getAreaCalculationFunction RefMath.lib "Shoelace" unitSquare
     = calculateShoelaceArea unitSquare.
Proof.
  split.
  - apply (unknown_algorithm_is_shoelace RefMath.lib ""); discriminate.
  - apply (unknown_algorithm_is_shoelace RefMath.lib "Shoelace"); discriminate.
Defined.

(** ** The coordinate filter *)

(** C5.  A fix within [1e-4] degrees of (0, 0) in both coordinates is
    rejected in every filter state, the first call included, and the state
    is left as it was; (0.00005, -0.00003) is such a fix. *)
Theorem origin_sentinel_rejected :
  (forall (st : Firmware.FilterState) (lat lon : float),
      (Firmware.fabs lat <? 0.0001) = true ->
      (Firmware.fabs lon <? 0.0001) = true ->
      Firmware.isValidCoordinate st lat lon = (false, st))
  /\ (forall st : Firmware.FilterState,
        Firmware.isValidCoordinate st 0.00005 (-0.00003) = (false, st))
  /\ Firmware.isValidCoordinate Firmware.initialFilter 0.00005 (-0.00003)
     = (false, Firmware.initialFilter).
Proof.
  assert (G : forall st lat lon,
             (Firmware.fabs lat <? 0.0001) = true ->
             (Firmware.fabs lon <? 0.0001) = true ->
             Firmware.isValidCoordinate st lat lon = (false, st)).
  { intros st lat lon Hlat Hlon. unfold Firmware.isValidCoordinate.
    rewrite Hlat, Hlon. reflexivity. }
  split; [ exact G | ].
  split; [ | apply G; reflexivity ].
  intro st. apply G; reflexivity.
Qed.

Lemma origin_sentinel_rejected_witness :
  Firmware.isValidCoordinate (Firmware.mkFilterState false 10 20) 0.00005 (-0.00003)
  = (false, Firmware.mkFilterState false 10 20).
Proof.
  apply (proj1 origin_sentinel_rejected); reflexivity.
Defined.

Lemma processGPSData_cursor (s : Firmware.Sketch) (g : Firmware.GpsReading) :
  cursorFollows s -> cursorFollows (Firmware.processGPSData s g).
Proof.
  intro H. unfold Firmware.processGPSData.
  destruct (Firmware.locationValid g); [ | exact H ].
  cbv zeta. unfold Firmware.isValidCoordinate.
  destruct ((Firmware.fabs (Firmware.gpsLat g) <? 0.0001)
            && (Firmware.fabs (Firmware.gpsLng g) <? 0.0001)).
  - exact H.
  - destruct (Firmware.isFirstValidCoordinate (Firmware.filterState s)).
    + right. exists (Firmware.coordinates s), (Firmware.gpsLat g), (Firmware.gpsLng g).
      split; reflexivity.
    + destruct (Firmware.calculateDistance _ _ _ _ <? Firmware.MIN_DISTANCE_CHANGE).
      * exact H.
      * right. exists (Firmware.coordinates s), (Firmware.gpsLat g), (Firmware.gpsLng g).
        split; reflexivity.
Qed.

Lemma runSketch_cursor (readings : list Firmware.GpsReading) :
  cursorFollows (Firmware.runSketch readings).
Proof.
  unfold Firmware.runSketch.
  assert (G : forall l s, cursorFollows s -> cursorFollows (fold_left Firmware.processGPSData l s)).
  { induction l as [| g t IH]; intros s Hs; simpl.
    - exact Hs.
    - apply IH. apply processGPSData_cursor. exact Hs. }
  apply G. left. split; reflexivity.
Qed.

(** C6.  Once a point has been accepted, a fix outside the origin sentinel
    is rejected, with the state unchanged, when its distance
    [sqrt(dlat^2 + dlon^2)] from the last accepted point is below [1e-5];
    otherwise it is accepted and becomes the last accepted point.  This
    holds of the filter in every state with the first-fix flag cleared, and
    of the sketch after any sequence of readings, where the last accepted
    point is the last stored one.  After (10.000005, 20.000003), the fix
    (10, 20) is rejected and (10.01, 20.01) is accepted. *)
Theorem minimum_movement_filter :
  (forall (st : Firmware.FilterState) (lat lon : float),
      Firmware.isFirstValidCoordinate st = false ->
      (Firmware.fabs lat <? 0.0001) && (Firmware.fabs lon <? 0.0001) = false ->
      Firmware.calculateDistance (Firmware.lastLat st) (Firmware.lastLon st) lat lon
      = PrimFloat.sqrt ((lat - Firmware.lastLat st) * (lat - Firmware.lastLat st)
                        + (lon - Firmware.lastLon st) * (lon - Firmware.lastLon st))
      /\ Firmware.isValidCoordinate st lat lon
         = if Firmware.calculateDistance (Firmware.lastLat st) (Firmware.lastLon st) lat lon
              <? 0.00001
           then (false, st)
           else (true, Firmware.mkFilterState false lat lon))
  /\ (forall (readings : list Firmware.GpsReading) (pre : list (float * float))
             (la lo lat lon : float),
        Firmware.coordinates (Firmware.runSketch readings) = pre ++ [(la, lo)] ->
        (Firmware.fabs lat <? 0.0001) && (Firmware.fabs lon <? 0.0001) = false ->
        Firmware.isValidCoordinate (Firmware.filterState (Firmware.runSketch readings)) lat lon
        = if Firmware.calculateDistance la lo lat lon <? 0.00001
          then (false, Firmware.mkFilterState false la lo)
          else (true, Firmware.mkFilterState false lat lon))
  /\ Firmware.isValidCoordinate Firmware.initialFilter 10.000005 20.000003
     = (true, Firmware.mkFilterState false 10.000005 20.000003)
  /\ Firmware.isValidCoordinate afterFirstFix 10 20 = (false, afterFirstFix)
  /\ Firmware.isValidCoordinate afterFirstFix 10.01 20.01
     = (true, Firmware.mkFilterState false 10.01 20.01).
Proof.
  assert (G : forall st lat lon,
             Firmware.isFirstValidCoordinate st = false ->
             (Firmware.fabs lat <? 0.0001) && (Firmware.fabs lon <? 0.0001) = false ->
             Firmware.isValidCoordinate st lat lon
             = if Firmware.calculateDistance (Firmware.lastLat st) (Firmware.lastLon st) lat lon
                  <? 0.00001
               then (false, st)
               else (true, Firmware.mkFilterState false lat lon)).
  { intros st lat lon Hfirst Hsent. unfold Firmware.isValidCoordinate.
    rewrite Hsent, Hfirst. reflexivity. }
  split; [ | split ].
  - intros st lat lon Hfirst Hsent. split; [ reflexivity | ].
    apply G; assumption.
  - intros readings pre la lo lat lon Hc Hsent.
    destruct (runSketch_cursor readings) as [[He _] | (pre' & la' & lo' & Hc' & Hf)].
    + rewrite He in Hc. destruct pre; discriminate.
    + rewrite Hc' in Hc. apply app_inj_tail in Hc.
      destruct Hc as [_ Hlast]. injection Hlast as -> ->.
      rewrite Hf. apply (G (Firmware.mkFilterState false la lo) lat lon eq_refl Hsent).
  - repeat split; vm_compute; reflexivity.
Qed.

Lemma minimum_movement_filter_witness :
  Firmware.isValidCoordinate afterFirstFix 10 20 = (false, afterFirstFix).
Proof.
  refine (eq_trans
    (proj2 (proj1 minimum_movement_filter afterFirstFix 10 20 eq_refl eq_refl)) _).
  vm_compute. reflexivity.
Defined.

(** ** The hull depends on [Math.atan2] at the offsets from the anchor only *)

Lemma insertSorted_ext (A : Type) (f g : A -> A -> float) (x : A) (l : list A) :
  (forall y, In y l -> f x y = g x y) ->
  insertSorted f x l = insertSorted g x l.
Proof.
  induction l as [| y t IH]; intro H; simpl.
  - reflexivity.
  - rewrite (H y (or_introl eq_refl)).
    destruct (g x y <? 0); [ reflexivity | ].
    f_equal. apply IH. intros z Hz. apply H. right. exact Hz.
Qed.

Lemma insertSorted_in (A : Type) (f : A -> A -> float) (x z : A) (l : list A) :
  In z (insertSorted f x l) -> z = x \/ In z l.
Proof.
  induction l as [| y t IH]; simpl.
  - intros [<- | []]. left. reflexivity.
  - destruct (f x y <? 0); simpl.
    + intros [<- | [<- | H]]; auto.
    + intros [<- | H]; auto.
      destruct (IH H) as [-> | H']; auto.
Qed.

Lemma sort_fold_ext (A : Type) (f g : A -> A -> float) (P : A -> Prop) (l acc : list A) :
  (forall x y, P x -> P y -> f x y = g x y) ->
  Forall P l -> Forall P acc ->
  fold_left (fun sorted x => insertSorted f x sorted) l acc
  = fold_left (fun sorted x => insertSorted g x sorted) l acc.
Proof.
  intro Hfg. revert acc.
  induction l as [| x t IH]; intros acc Hl Hacc; simpl.
  - reflexivity.
  - inversion Hl as [| ? ? Px Pt]; subst.
    rewrite (insertSorted_ext A f g x acc).
    + apply IH; [ exact Pt | ].
      apply Forall_forall. intros z Hz.
      destruct (insertSorted_in _ _ _ _ _ Hz) as [-> | Hz']; [ exact Px | ].
      rewrite Forall_forall in Hacc. apply Hacc. exact Hz'.
    + intros y Hy. apply Hfg; [ exact Px | ].
      rewrite Forall_forall in Hacc. apply Hacc. exact Hy.
Qed.

Lemma Array_sort_ext (A : Type) (f g : A -> A -> float) (l : list A) :
  (forall x y, In x l -> In y l -> f x y = g x y) ->
  Array_sort f l = Array_sort g l.
Proof.
  intro H. unfold Array_sort.
  apply (sort_fold_ext A f g (fun x => In x l)).
  - exact H.
  - apply Forall_forall. auto.
  - constructor.
Qed.

Lemma convexHull_ext (M M' : MathLib) (coordinates : list Point) :
  (forall p, In p coordinates ->
     Math_atan2 M (lat p - lat (anchorOf coordinates)) (lon p - lon (anchorOf coordinates))
     = Math_atan2 M' (lat p - lat (anchorOf coordinates)) (lon p - lon (anchorOf coordinates))) ->
  calculateConvexHull M coordinates = calculateConvexHull M' coordinates.
Proof.
  intro H. unfold calculateConvexHull.
  destruct (Nat.leb (List.length coordinates) 3); [ reflexivity | ].
  cbv zeta.
  rewrite (Array_sort_ext _
             (hullCompare M (lowestIndex coordinates) (nth (lowestIndex coordinates) coordinates (pt 0 0)))
             (hullCompare M' (lowestIndex coordinates) (nth (lowestIndex coordinates) coordinates (pt 0 0)))).
  - reflexivity.
  - intros [i a] [j b] Ha Hb.
    apply in_combine_r in Ha. apply in_combine_r in Hb.
    unfold hullCompare. cbn [fst snd].
    fold (anchorOf coordinates).
    rewrite (H a Ha), (H b Hb). reflexivity.
Qed.

Lemma standard_angles_ref : StandardAngles RefMath.lib.
Proof. repeat split; vm_compute; reflexivity. Qed.

Lemma unitSquare_hull_ext (M : MathLib) :
  StandardAngles M ->
  calculateConvexHull M unitSquare = calculateConvexHull RefMath.lib unitSquare.
Proof.
  intros (H00 & H01 & H11 & H10).
  apply convexHull_ext.
  assert (Ha : anchorOf unitSquare = pt 1 1) by (vm_compute; reflexivity).
  rewrite Ha.
  intros p Hp. simpl in Hp.
  destruct Hp as [<- | [<- | [<- | [<- | []]]]];
    atan2_at_offsets H00 H01 H11 H10.
Qed.

Lemma squareTwice_hull_ext (M : MathLib) :
  StandardAngles M ->
  calculateConvexHull M squareTwice = calculateConvexHull RefMath.lib squareTwice.
Proof.
  intros (H00 & H01 & H11 & H10).
  apply convexHull_ext.
  assert (Ha : anchorOf squareTwice = pt 1 1) by (vm_compute; reflexivity).
  rewrite Ha.
  intros p Hp. simpl in Hp.
  repeat (destruct Hp as [<- | Hp]; [ atan2_at_offsets H00 H01 H11 H10 | ]).
  destruct Hp.
Qed.

Lemma unitSquare_hull_ref : calculateConvexHull RefMath.lib unitSquare = unitSquare.
Proof. vm_compute. reflexivity. Qed.

Lemma squareTwice_hull_ref : calculateConvexHull RefMath.lib squareTwice = unitSquare.
Proof. vm_compute. reflexivity. Qed.

Lemma unitSquare_shoelace : calculateShoelaceArea unitSquare = 1239214.24.
Proof. vm_compute. reflexivity. Qed.

(** ** The unit square *)

(** C2, the claim as stated fails: the area the shoelace algorithm returns
    for the square (1,1), (1,2), (2,2), (2,1) is 1239214.24 hectares, above
    1239207.7, so it is not a number that starts 1,239,207.6. *)
Lemma unit_square_is_not_1239207 :
  calculateShoelaceArea unitSquare = 1239214.24
  /\ (1239207.7 <? calculateShoelaceArea unitSquare) = true.
Proof. split; vm_compute; reflexivity. Qed.

(** C2, amended.  On the square (1,1), (1,2), (2,2), (2,1) the shoelace sum
    gives exactly 1.0 square degree, and the area is
    1.0 * 111.32 * 111.32 * 100 = 1239214.24 hectares; the Graham scan
    returns the four points in their order, so the convex-hull algorithm
    returns the same number, and so does the firmware's [calculateArea]. *)
Theorem unit_square_area (M : MathLib) :
  StandardAngles M ->
  shoelaceSquareDegrees unitSquare = 1
  /\ calculateShoelaceArea unitSquare = 1 * 111.32 * 111.32 * 100
  /\ calculateShoelaceArea unitSquare = 1239214.24
  /\ calculateConvexHull M unitSquare = unitSquare
  /\ calculateConvexHullArea M unitSquare = calculateShoelaceArea unitSquare
  /\ Firmware.calculateArea unitSquarePairs = 1239214.24.
Proof.
  intro HM.
  assert (Hh : calculateConvexHull M unitSquare = unitSquare).
  { rewrite (unitSquare_hull_ext M HM). exact unitSquare_hull_ref. }
  repeat split; try (vm_compute; reflexivity).
  - exact Hh.
  - unfold calculateConvexHullArea. rewrite Hh. reflexivity.
Qed.

Lemma unit_square_area_witness :
  calculateConvexHullArea RefMath.lib unitSquare = calculateShoelaceArea unitSquare.
Proof.
  apply (unit_square_area RefMath.lib standard_angles_ref).
Defined.

(** ** Hull area against shoelace area *)

(** The square walked twice, on every host with the standard angles: the
    hull is the square, whose area is half the boundary's shoelace area. *)
Lemma squareTwice_areas (M : MathLib) :
  StandardAngles M ->
  calculateConvexHullArea M squareTwice = 1239214.24
  /\ calculateShoelaceArea squareTwice = 2478428.48.
Proof.
  intro HM. split; [ | vm_compute; reflexivity ].
  unfold calculateConvexHullArea.
  rewrite (squareTwice_hull_ext M HM), squareTwice_hull_ref.
  exact unitSquare_shoelace.
Qed.


(** ** The shoelace sum over exact arithmetic *)

Section ExactShoelace.
Local Open Scope R_scope.

Lemma pathSum_cons2 (a b : Coordinate R) (t : list (Coordinate R)) :
  pathSum (a :: b :: t) = crossTerm a b + pathSum (b :: t).
Proof. reflexivity. Qed.

(** A path splits at any of its points. *)
Lemma pathSum_split (l1 l2 : list (Coordinate R)) (b : Coordinate R) :
  pathSum (l1 ++ b :: l2) = pathSum (l1 ++ [b]) + pathSum (b :: l2).
Proof.
  induction l1 as [| a [| a' t] IH].
  - simpl. destruct l2; simpl; ring.
  - simpl. destruct l2; simpl; ring.
  - change ((a :: a' :: t) ++ b :: l2) with (a :: (a' :: t) ++ b :: l2).
    change ((a :: a' :: t) ++ [b]) with (a :: (a' :: t) ++ [b]).
    change ((a' :: t) ++ b :: l2) with (a' :: (t ++ b :: l2)) in *.
    change ((a' :: t) ++ [b]) with (a' :: (t ++ [b])) in *.
    rewrite !pathSum_cons2. rewrite IH. ring.
Qed.

Lemma crossTerm_swap (a b : Coordinate R) : crossTerm b a = - crossTerm a b.
Proof. unfold crossTerm. ring. Qed.

Lemma pathSum_rev (l : list (Coordinate R)) : pathSum (rev l) = - pathSum l.
Proof.
  induction l as [| a [| b t] IH].
  - simpl. ring.
  - simpl. ring.
  - rewrite pathSum_cons2.
    change (rev (a :: b :: t)) with (rev (b :: t) ++ [a]).
    change (rev (b :: t)) with (rev t ++ [b]) in *.
    rewrite <- app_assoc. cbn [app].
    rewrite pathSum_split. rewrite IH.
    cbn [pathSum]. rewrite crossTerm_swap. ring.
Qed.

(** The loop, started anywhere on a path, adds the path's terms. *)
Lemma loop_on_path (f : R -> nat -> R) (pre l : list (Coordinate R)) (acc : R) :
  (forall acc i a b,
      nth_error (pre ++ l) i = Some a ->
      nth_error (pre ++ l) (S i) = Some b ->
      f acc i = acc + crossTerm a b) ->
  fold_left f (seq (List.length pre) (List.length l - 1)) acc = acc + pathSum l.
Proof.
  revert pre acc.
  induction l as [| a [| b t] IH]; intros pre acc Hf.
  - simpl. ring.
  - simpl. ring.
  - replace (List.length (a :: b :: t) - 1)%nat with (S (List.length (b :: t) - 1))%nat
      by (cbn [List.length]; lia).
    cbn [seq fold_left].
    rewrite (Hf acc (List.length pre) a b).
    + specialize (IH (pre ++ [a]) (acc + crossTerm a b)).
      assert (Hlen : List.length (pre ++ [a]) = S (List.length pre))
        by (rewrite length_app; cbn [List.length]; lia).
      rewrite Hlen in IH.
      rewrite IH.
      * rewrite pathSum_cons2. ring.
      * intros acc' i a' b' Ha' Hb'. rewrite <- app_assoc in Ha', Hb'.
        apply (Hf acc' i a' b' Ha' Hb').
    + rewrite nth_error_app2 by lia. rewrite Nat.sub_diag. reflexivity.
    + rewrite nth_error_app2 by lia.
      replace (S (List.length pre) - List.length pre)%nat with 1%nat by lia.
      reflexivity.
Qed.

Lemma exactShoelaceSum_ring (l : list (Coordinate R)) :
  exactShoelaceSum l = ringSum l.
Proof.
  destruct l as [| a t]; [ reflexivity | ].
  unfold exactShoelaceSum, shoelaceLoop, ringSum.
  set (l := a :: t).
  assert (Hn : (List.length (l ++ [a]) - 1 = List.length l)%nat)
    by (rewrite length_app; cbn [List.length]; lia).
  rewrite <- Hn at 1.
  rewrite <- (Rplus_0_l (pathSum (l ++ [a]))).
  apply (loop_on_path _ [] (l ++ [a]) 0).
  intros acc i x y Hx Hy. cbn [app] in Hx, Hy.
  assert (Hi : (S i < List.length (l ++ [a]))%nat)
    by (apply nth_error_Some; rewrite Hy; discriminate).
  rewrite length_app in Hi. cbn [List.length] in Hi.
  assert (Hil : (i < List.length l)%nat) by lia.
  unfold shoelaceStep.
  rewrite nth_error_app1 in Hx by exact Hil.
  rewrite (nth_error_nth _ _ _ Hx).
  assert (Hj : nth (Nat.modulo (i + 1) (List.length l)) l {| lat := 0; lon := 0 |} = y).
  { destruct (Nat.eq_dec (S i) (List.length l)) as [E | E].
    - replace (i + 1)%nat with (List.length l) by lia.
      rewrite Nat.Div0.mod_same.
      rewrite nth_error_app2 in Hy by lia.
      replace (S i - List.length l)%nat with 0%nat in Hy by lia.
      cbn in Hy. injection Hy as <-. reflexivity.
    - rewrite Nat.mod_small by lia.
      rewrite nth_error_app1 in Hy by lia.
      replace (i + 1)%nat with (S i) by lia.
      apply nth_error_nth. exact Hy. }
  rewrite Hj. unfold crossTerm. ring.
Qed.

Lemma ringSum_swap (l1 l2 : list (Coordinate R)) :
  ringSum (l2 ++ l1) = ringSum (l1 ++ l2).
Proof.
  destruct l1 as [| a l1]; [ rewrite app_nil_r; reflexivity | ].
  destruct l2 as [| b l2]; [ rewrite app_nil_r; reflexivity | ].
  unfold ringSum. cbn [app].
  rewrite <- !app_assoc. cbn [app].
  change (pathSum ((b :: l2) ++ a :: (l1 ++ [b]))
          = pathSum ((a :: l1) ++ b :: (l2 ++ [a]))).
  rewrite (pathSum_split (b :: l2) (l1 ++ [b]) a).
  rewrite (pathSum_split (a :: l1) (l2 ++ [a]) b).
  cbn [app]. ring.
Qed.

Lemma ringSum_rotate (k : nat) (l : list (Coordinate R)) :
  ringSum (rotate k l) = ringSum l.
Proof.
  unfold rotate. rewrite ringSum_swap. rewrite firstn_skipn. reflexivity.
Qed.

Lemma ringSum_rev (l : list (Coordinate R)) : ringSum (rev l) = - ringSum l.
Proof.
  destruct l as [| a t]; [ simpl; ring | ].
  cbn [rev].
  rewrite (ringSum_swap [a] (rev t)).
  unfold ringSum. cbn [app].
  replace (a :: rev t ++ [a]) with (rev (a :: t ++ [a])).
  - apply pathSum_rev.
  - cbn [rev]. rewrite rev_app_distr. reflexivity.
Qed.

Lemma rotate_length (A : Type) (k : nat) (l : list A) :
  List.length (rotate k l) = List.length l.
Proof.
  unfold rotate. rewrite length_app, Nat.add_comm, <- length_app, firstn_skipn.
  reflexivity.
Qed.

End ExactShoelace.

(** ** Rotation and reversal of the boundary *)

(** C8, the claim as stated fails: in binary64 the additions of the loop
    round, and the rounding depends on where the ring starts.  For the
    triangle (12.9728, 78.951), (12.97, 78.95), (12.97, 78.952) the area is
    3.469799947769006 hectares, 3.4697997364454833 when the list starts at
    its second point, and 3.469799806886658 when the list is reversed. *)
Lemma shoelace_depends_on_start :
  calculateShoelaceArea fieldTriangle = 3.469799947769006
  /\ calculateShoelaceArea (rotate 1 fieldTriangle) = 3.4697997364454833
  /\ calculateShoelaceArea (rev fieldTriangle) = 3.469799806886658
  /\ (calculateShoelaceArea (rotate 1 fieldTriangle) =? calculateShoelaceArea fieldTriangle)
     = false
  /\ (calculateShoelaceArea (rev fieldTriangle) =? calculateShoelaceArea fieldTriangle)
     = false.
Proof. repeat split; vm_compute; reflexivity. Qed.

(** C8, amended.  When the arithmetic of the loop is exact (the loop read
    over the real numbers), the signed sum is the same for every rotation of
    the point list and changes sign under reversal, so the area, which takes
    the absolute value, is invariant under both. *)
Theorem exact_shoelace_invariant (coordinates : list (Coordinate R)) :
  (forall k : nat,
      exactShoelaceSum (rotate k coordinates) = exactShoelaceSum coordinates
      /\ exactShoelaceArea (rotate k coordinates) = exactShoelaceArea coordinates)
  /\ exactShoelaceSum (rev coordinates) = (- exactShoelaceSum coordinates)%R
  /\ exactShoelaceArea (rev coordinates) = exactShoelaceArea coordinates.
Proof.
  split; [ | split ].
  - intro k.
    assert (E : exactShoelaceSum (rotate k coordinates) = exactShoelaceSum coordinates).
    { rewrite !exactShoelaceSum_ring. apply ringSum_rotate. }
    split; [ exact E | ].
    unfold exactShoelaceArea. rewrite rotate_length, E. reflexivity.
  - rewrite !exactShoelaceSum_ring. apply ringSum_rev.
  - unfold exactShoelaceArea.
    rewrite length_rev, !exactShoelaceSum_ring, ringSum_rev, Rabs_Ropp.
    reflexivity.
Qed.

(** ** The hull over the real numbers *)

(** The generic hull at binary64 is the code's. *)
Lemma calculateConvexHull_over (M : MathLib) (coordinates : list Point) :
  calculateConvexHull M coordinates
  = convexHullOver 0 1 (-1) PrimFloat.add PrimFloat.sub PrimFloat.mul
                   PrimFloat.ltb PrimFloat.eqb (Math_atan2 M) Math_sqrt coordinates.
Proof. reflexivity. Qed.























(** ** The sorted points turn counter-clockwise *)








Section SortedByKey.
Variable root : R -> R.
Variable lowest : nat.
Variable a : Coordinate R.

Let comparefn : nat * Coordinate R -> nat * Coordinate R -> R :=
  hullCompareOver 1%R (-1)%R Rplus Rminus Rmult Reqb Ratan2 root lowest a.






End SortedByKey.






(** ** Boundaries that are in the order of the scan *)












(** ** IEEE facts: rounding keeps the sign, NaN is absorbing *)

Section Rounding.
Variables prec emax : Z.

Lemma iter_pos_inv (A : Type) (f : A -> A) (P : A -> Prop) :
  (forall x, P x -> P (f x)) -> forall p x, P x -> P (SpecFloat.iter_pos f p x).
Proof.
  intros Hf p. induction p as [p IH | p IH |]; intros x Hx; simpl; auto.
Qed.

Lemma shr_1_nonneg (mrs : shr_record) : (0 <= shr_m mrs)%Z -> (0 <= shr_m (shr_1 mrs))%Z.
Proof.
  destruct mrs as [m r s]. simpl. intro H.
  destruct m as [| [p | p |] | p]; simpl; lia.
Qed.

Lemma shr_fexp_nonneg (m e : Z) (l : location) :
  (0 <= m)%Z -> (0 <= shr_m (fst (shr_fexp prec emax m e l)))%Z.
Proof.
  intro H. unfold shr_fexp, shr.
  assert (H0 : (0 <= shr_m (shr_record_of_loc m l))%Z).
  { destruct l as [| []]; simpl; exact H. }
  destruct (fexp prec emax (Zdigits2 m + e) - e)%Z; simpl; try exact H0.
  apply (iter_pos_inv _ shr_1 (fun r => (0 <= shr_m r)%Z)); [ exact shr_1_nonneg | exact H0 ].
Qed.

Lemma round_nearest_even_nonneg (m : Z) (l : location) :
  (0 <= m)%Z -> (0 <= round_nearest_even m l)%Z.
Proof.
  intro H. destruct l as [| []]; simpl; try lia.
  destruct (Z.even m); lia.
Qed.

(** Rounding a non-negative mantissa gives a number of the requested sign. *)
Lemma binary_round_aux_sign (sx : bool) (mx ex : Z) (lx : location) :
  (0 <= mx)%Z ->
  match binary_round_aux prec emax sx mx ex lx with
  | S754_nan => False
  | S754_zero s | S754_infinity s | S754_finite s _ _ => s = sx
  end.
Proof.
  intro H. unfold binary_round_aux.
  pose proof (shr_fexp_nonneg mx ex lx H) as H1.
  destruct (shr_fexp prec emax mx ex lx) as [mrs' e']. simpl in H1.
  pose proof (shr_fexp_nonneg
                (round_nearest_even (shr_m mrs') (loc_of_shr_record mrs')) e' loc_Exact
                (round_nearest_even_nonneg _ _ H1)) as H2.
  destruct (shr_fexp prec emax _ e' loc_Exact) as [mrs'' e'']. simpl in H2.
  destruct (shr_m mrs'') as [| m | m].
  - reflexivity.
  - destruct (e'' <=? emax - prec)%Z; reflexivity.
  - lia.
Qed.

Lemma binary_round_aux_nonneg (mx ex : Z) (lx : location) :
  (0 <= mx)%Z -> sfNonneg (binary_round_aux prec emax false mx ex lx).
Proof.
  intro H. pose proof (binary_round_aux_sign false mx ex lx H) as H1.
  destruct (binary_round_aux prec emax false mx ex lx); simpl; auto.
Qed.

Lemma SFadd_nonneg (x y : spec_float) :
  sfNonneg x -> sfNonneg y -> sfNonneg (SFadd prec emax x y).
Proof.
  destruct x as [sx | sx | | sx mx ex]; destruct y as [sy | sy | | sy my ey];
    simpl; intros Hx Hy; subst; try tauto; try reflexivity.
  - destruct sx, sy; simpl; exact I.
  - destruct (shl_align mx ex _) as [m1 e1].
    destruct (shl_align my ey _) as [m2 e2].
    cbn [fst cond_Zopp].
    change (Z.pos m1 + Z.pos m2)%Z with (Z.pos (m1 + m2)).
    cbn [binary_normalize]. unfold binary_round.
    destruct (shl_align _ _ _) as [mz ez].
    apply binary_round_aux_nonneg. lia.
Qed.

Lemma SFmul_nonneg_finite (x : spec_float) (my : positive) (ey : Z) :
  sfNonneg x -> sfNonneg (SFmul prec emax x (S754_finite false my ey)).
Proof.
  destruct x as [sx | sx | | sx mx ex]; simpl; intro Hx; subst; try tauto; try reflexivity.
  apply binary_round_aux_nonneg. lia.
Qed.

Lemma SFsqrt_nonneg (x : spec_float) : sfNonneg x -> sfNonneg (SFsqrt prec emax x).
Proof.
  destruct x as [sx | sx | | sx mx ex]; simpl; intro Hx; subst; try tauto; try reflexivity.
  unfold SFsqrt_core_binary.
  set (m' := match _ with Z0 => _ | Zpos _ => _ | Zneg _ => _ end).
  pose proof (Z.sqrtrem_sqrt m') as Hq.
  destruct (Z.sqrtrem m') as [q r]. simpl in Hq. subst q.
  apply binary_round_aux_nonneg. apply Z.sqrt_nonneg.
Qed.

End Rounding.

Lemma Prim2SF_zero : Prim2SF 0 = S754_zero false.
Proof. vm_compute. reflexivity. Qed.

Lemma Prim2SF_nan : Prim2SF nan = S754_nan.
Proof. vm_compute. reflexivity. Qed.

Lemma SFcompare_refl (x : spec_float) :
  x <> S754_nan -> SFcompare x x = Some Eq.
Proof.
  destruct x as [s | s | | s m e]; simpl; intro H; try congruence.
  - destruct s; reflexivity.
  - rewrite Z.compare_refl, Pos.compare_cont_refl. destruct s; reflexivity.
Qed.

Lemma is_nan_spec (x : float) :
  is_nan x = match Prim2SF x with S754_nan => true | _ => false end.
Proof.
  unfold is_nan. rewrite FloatAxioms.eqb_spec. unfold SFeqb.
  destruct (Prim2SF x) as [s | s | | s m e] eqn:E.
  - reflexivity.
  - rewrite SFcompare_refl by discriminate. reflexivity.
  - reflexivity.
  - rewrite SFcompare_refl by discriminate. reflexivity.
Qed.

Lemma leb0_spec (x : float) : (0 <=? x) = true <-> sfNonneg (Prim2SF x).
Proof.
  rewrite FloatAxioms.leb_spec, Prim2SF_zero. unfold SFleb.
  destruct (Prim2SF x) as [s | s | | s m e]; simpl.
  - tauto.
  - destruct s; simpl; split; congruence.
  - split; [ discriminate | tauto ].
  - destruct s; simpl; split; congruence.
Qed.

Lemma nonneg_not_nan (x : float) : (0 <=? x) = true -> is_nan x = false.
Proof.
  intro H. apply leb0_spec in H. rewrite is_nan_spec.
  destruct (Prim2SF x); simpl in H; tauto.
Qed.

Lemma add_nonneg (x y : float) :
  (0 <=? x) = true -> (0 <=? y) = true -> (0 <=? x + y) = true.
Proof.
  rewrite !leb0_spec, FloatAxioms.add_spec. apply SFadd_nonneg.
Qed.

Lemma sqrt_nonneg (x : float) : (0 <=? x) = true -> (0 <=? PrimFloat.sqrt x) = true.
Proof.
  rewrite !leb0_spec, FloatAxioms.sqrt_spec. apply SFsqrt_nonneg.
Qed.

Lemma mul100_nonneg (x : float) : (0 <=? x) = true -> (0 <=? x * 100) = true.
Proof.
  rewrite !leb0_spec, FloatAxioms.mul_spec.
  replace (Prim2SF 100) with (S754_finite false 7036874417766400 (-46))
    by (vm_compute; reflexivity).
  apply SFmul_nonneg_finite.
Qed.

(** A number below zero: negative, and not NaN. *)
Lemma ltb0_spec (x : float) :
  (x <? 0) = true ->
  match Prim2SF x with
  | S754_infinity true | S754_finite true _ _ => True
  | _ => False
  end.
Proof.
  rewrite FloatAxioms.ltb_spec, Prim2SF_zero. unfold SFltb.
  destruct (Prim2SF x) as [s | s | | s m e]; simpl; try discriminate.
  - destruct s; simpl; [ tauto | discriminate ].
  - destruct s; simpl; [ tauto | discriminate ].
Qed.

Lemma ltb0_not_nan (x : float) : (x <? 0) = true -> is_nan x = false.
Proof.
  intro H. apply ltb0_spec in H. rewrite is_nan_spec.
  destruct (Prim2SF x) as [s | [] | | [] m e]; tauto.
Qed.

Lemma ltb0_not_pos (x : float) : (x <? 0) = true -> (0 <? x) = false.
Proof.
  intro H. apply ltb0_spec in H.
  rewrite FloatAxioms.ltb_spec, Prim2SF_zero. unfold SFltb.
  destruct (Prim2SF x) as [s | [] | | [] m e]; simpl; tauto.
Qed.

Lemma ltb0_leb (x : float) : (0 <? x) = true -> (0 <=? x) = true.
Proof.
  rewrite FloatAxioms.ltb_spec, FloatAxioms.leb_spec. unfold SFltb, SFleb.
  destruct (SFcompare (Prim2SF 0) (Prim2SF x)) as [[] |]; congruence.
Qed.

Lemma sqrt_negative_nan (x : float) : (x <? 0) = true -> is_nan (PrimFloat.sqrt x) = true.
Proof.
  intro H. apply ltb0_spec in H.
  rewrite is_nan_spec, FloatAxioms.sqrt_spec. unfold SF64sqrt.
  destruct (Prim2SF x) as [s | [] | | [] m e]; simpl; tauto.
Qed.

(** NaN is absorbing. *)
Lemma nan_add_l (x : float) : nan + x = nan.
Proof. apply Prim2SF_inj. rewrite FloatAxioms.add_spec, Prim2SF_nan. reflexivity. Qed.
Lemma nan_add_r (x : float) : x + nan = nan.
Proof.
  apply Prim2SF_inj. rewrite FloatAxioms.add_spec, Prim2SF_nan.
  destruct (Prim2SF x); reflexivity.
Qed.
Lemma nan_sub_l (x : float) : nan - x = nan.
Proof. apply Prim2SF_inj. rewrite FloatAxioms.sub_spec, Prim2SF_nan. reflexivity. Qed.
Lemma nan_sub_r (x : float) : x - nan = nan.
Proof.
  apply Prim2SF_inj. rewrite FloatAxioms.sub_spec, Prim2SF_nan.
  destruct (Prim2SF x); reflexivity.
Qed.
Lemma nan_mul_l (x : float) : nan * x = nan.
Proof. apply Prim2SF_inj. rewrite FloatAxioms.mul_spec, Prim2SF_nan. reflexivity. Qed.
Lemma nan_mul_r (x : float) : x * nan = nan.
Proof.
  apply Prim2SF_inj. rewrite FloatAxioms.mul_spec, Prim2SF_nan.
  destruct (Prim2SF x); reflexivity.
Qed.

(** ** The clamp of Heron's radicand *)

Lemma Math_max_zero (r : float) :
  is_nan r = false -> Math_max 0 r = if 0 <? r then r else 0.
Proof.
  intro Hr. unfold Math_max. rewrite Hr.
  change (is_nan 0 || false) with false. cbv iota.
  change (maxStep neg_infinity 0) with 0.
  unfold maxStep.
  change (isNegZero 0) with false. rewrite andb_false_r.
  reflexivity.
Qed.

Lemma triangleArea_clamped (M : MathLib) (centroid pi pj : Point) :
  (heronRadicand M centroid pi pj <? 0) = true ->
  triangleArea M centroid pi pj = 0.
Proof.
  intro H. unfold triangleArea.
  rewrite Math_max_zero by (apply ltb0_not_nan; exact H).
  rewrite (ltb0_not_pos _ H). reflexivity.
Qed.

Lemma triangleArea_nonneg (M : MathLib) (centroid pi pj : Point) :
  is_nan (heronRadicand M centroid pi pj) = false ->
  (0 <=? triangleArea M centroid pi pj) = true.
Proof.
  intro H. unfold triangleArea, Math_sqrt.
  rewrite Math_max_zero by exact H.
  apply sqrt_nonneg.
  destruct (0 <? heronRadicand M centroid pi pj) eqn:E.
  - apply ltb0_leb. exact E.
  - reflexivity.
Qed.

Lemma haversine_fold_nonneg (M : MathLib) (coordinates : list Point) (l : list nat) (acc : float) :
  (0 <=? acc) = true ->
  (forall i, In i l -> is_nan (radicandAt M coordinates i) = false) ->
  (0 <=? fold_left (haversineStep M coordinates (centroidOf coordinates)) l acc) = true.
Proof.
  revert acc. induction l as [| i t IH]; intros acc Hacc Hl; simpl.
  - exact Hacc.
  - apply IH.
    + unfold haversineStep, edgeAt. apply add_nonneg; [ exact Hacc | ].
      apply triangleArea_nonneg. apply (Hl i). left. reflexivity.
    + intros j Hj. apply Hl. right. exact Hj.
Qed.

(** The algorithms page's copy takes the root of the radicand as it is: a
    negative radicand gives NaN there. *)
Lemma page_copy_negative_radicand (M : MathLib) (centroid pi pj : Point) :
  (heronRadicand M centroid pi pj <? 0) = true ->
  is_nan (AlgorithmsPage.triangleArea M centroid pi pj) = true.
Proof.
  intro H. unfold AlgorithmsPage.triangleArea, Math_sqrt. apply sqrt_negative_nan. exact H.
Qed.

(** C7, amended.  In [calculateHaversineArea] of the area utilities the
    radicand of each triangle goes through [Math.max(0, .)] before the root:
    a negative radicand contributes 0, and a radicand that is not NaN
    contributes a number that is not NaN and not negative.  So the area of
    a boundary is NaN only if the radicand of one of its triangles is NaN
    already (a side length that is NaN); otherwise it is a non-negative
    number. *)
Theorem haversine_clamps_radicand (M : MathLib) :
  (forall centroid pi pj : Point,
      (heronRadicand M centroid pi pj <? 0) = true ->
      triangleArea M centroid pi pj = 0)
  /\ (forall centroid pi pj : Point,
        is_nan (heronRadicand M centroid pi pj) = false ->
        is_nan (triangleArea M centroid pi pj) = false
        /\ (0 <=? triangleArea M centroid pi pj) = true)
  /\ (forall coordinates : list Point,
        (forall i, (i < List.length coordinates)%nat ->
                   is_nan (radicandAt M coordinates i) = false) ->
        is_nan (calculateHaversineArea M coordinates) = false
        /\ (0 <=? calculateHaversineArea M coordinates) = true).
Proof.
  split; [ exact (triangleArea_clamped M) | split ].
  - intros centroid pi pj H.
    pose proof (triangleArea_nonneg M centroid pi pj H) as Hn.
    split; [ apply nonneg_not_nan; exact Hn | exact Hn ].
  - intros coordinates H.
    assert (Hn : (0 <=? calculateHaversineArea M coordinates) = true).
    { unfold calculateHaversineArea.
      destruct (Nat.ltb (List.length coordinates) 3); [ reflexivity | ].
      cbv zeta. apply mul100_nonneg.
      apply haversine_fold_nonneg; [ reflexivity | ].
      intros i Hi. apply H. apply in_seq in Hi. lia. }
    split; [ apply nonneg_not_nan; exact Hn | exact Hn ].
Qed.

Lemma haversine_clamps_radicand_witness :
  is_nan (calculateHaversineArea RefMath.lib unitSquare) = false
  /\ (0 <=? calculateHaversineArea RefMath.lib unitSquare) = true.
Proof.
  apply (proj2 (proj2 (haversine_clamps_radicand RefMath.lib)) unitSquare).
  intros i Hi.
  do 4 (destruct i as [| i]; [ vm_compute; reflexivity | ]).
  simpl in Hi. lia.
Defined.

(** ** NaN from finite coordinates *)

Lemma haversine_from_infinity (M : MathLib) (lon1 lon2 : float) :
  Math_sin M neg_infinity = nan ->
  Math_atan2 M nan nan = nan ->
  haversineDistance M infinity lon1 1e308 lon2 = nan.
Proof.
  intros Hsin Hatan. unfold haversineDistance. cbv zeta.
  change ((1e308 - infinity) * Math_PI / 180 / 2) with neg_infinity.
  rewrite Hsin.
  change (nan * nan) with nan. rewrite nan_add_l.
  change (Math_sqrt nan) with nan.
  change (Math_sqrt (1 - nan)) with nan.
  rewrite Hatan. reflexivity.
Qed.

Lemma heronRadicand_from_infinity (M : MathLib) (lon0 lon1 lon2 : float) :
  Math_sin M neg_infinity = nan ->
  Math_atan2 M nan nan = nan ->
  heronRadicand M (pt infinity lon0) (pt 1e308 lon1) (pt 1e308 lon2) = nan.
Proof.
  intros Hsin Hatan. unfold heronRadicand. cbn [lat lon pt]. cbv zeta.
  rewrite !(haversine_from_infinity M _ _ Hsin Hatan).
  change (nan + nan) with nan. rewrite nan_add_l.
  change (nan / 2) with nan.
  rewrite !nan_mul_l. reflexivity.
Qed.

(** On every host whose [Math.sin] and [Math.atan2] return NaN at
    [-Infinity] and at NaN, as ECMA-262 requires, the area of the far triple
    is NaN: the sum of the three latitudes overflows, so the centroid's
    latitude is [Infinity]. *)
Lemma haversine_nan_on_overflow (M : MathLib) :
  Math_sin M neg_infinity = nan ->
  Math_atan2 M nan nan = nan ->
  calculateHaversineArea M farTriple = nan.
Proof.
  intros Hsin Hatan. unfold calculateHaversineArea.
  change (Nat.ltb (List.length farTriple) 3) with false. cbv iota zeta.
  change (centroidOf farTriple) with (pt infinity 0).
  change (seq 0 (List.length farTriple)) with [0; 1; 2]%nat.
  cbn [fold_left]. unfold haversineStep.
  change (edgeAt farTriple 0) with (pt 1e308 0, pt 1e308 0).
  change (edgeAt farTriple 1) with (pt 1e308 0, pt 1e308 0).
  change (edgeAt farTriple 2) with (pt 1e308 0, pt 1e308 0).
  unfold triangleArea.
  rewrite !(heronRadicand_from_infinity M _ _ _ Hsin Hatan).
  vm_compute. reflexivity.
Qed.

(** C7, the claim as stated fails: the boundary of three points at latitude
    1e308 has finite coordinates and three points, and its haversine area is
    NaN. *)
Lemma haversine_area_nan_for_finite_boundary :
  finiteBoundary farTriple = true
  /\ List.length farTriple = 3%nat
  /\ centroidOf farTriple = pt infinity 0
  /\ calculateHaversineArea RefMath.lib farTriple = nan
  /\ is_nan (calculateHaversineArea RefMath.lib farTriple) = true.
Proof. repeat split; vm_compute; reflexivity. Qed.

(** With the reference library, the straight pass along the meridian has
    two triangles with a negative radicand: the page's copy returns NaN, the
    area utilities return a small number. *)
Lemma page_copy_nan_on_meridian_track :
  (radicandAt RefMath.lib meridianTrack 1 <? 0) = true
  /\ is_nan (AlgorithmsPage.calculateHaversineArea RefMath.lib meridianTrack) = true
  /\ calculateHaversineArea RefMath.lib meridianTrack = 3.2345401344504163e-06.
Proof. repeat split; vm_compute; reflexivity. Qed.

(** ** Rounding to nearest: the error of one operation *)













(** ** Values of binary64 numbers as real numbers *)

















(** ** Rounding to four decimals and the two factors *)













(** ** Comparisons of positive numbers are comparisons of their values *)








(** ** The unit toggle *)






(** * Further properties of the code *)

(** ** The boundary the sketch stores *)

Lemma spaced_snoc (pre : list (float * float)) (a b : float * float) :
  spaced (pre ++ [a]) ->
  (Firmware.calculateDistance (fst a) (snd a) (fst b) (snd b)
   <? Firmware.MIN_DISTANCE_CHANGE) = false ->
  spaced ((pre ++ [a]) ++ [b]).
Proof.
  induction pre as [| x [| y t] IH]; intros Hs Hd.
  - simpl. auto.
  - simpl in *. tauto.
  - change (spaced (x :: (y :: t) ++ [a])) in Hs.
    change (spaced (x :: ((y :: t) ++ [a]) ++ [b])).
    cbn [app spaced] in Hs |- *. destruct Hs as [Hxy Hs].
    split; [ exact Hxy | ].
    apply IH; assumption.
Qed.

(** What [processGPSData] keeps true of the sketch: the cursor follows the
    boundary, no stored point is inside the sentinel, and neighbours are
    spaced. *)
Lemma processGPSData_boundary (s : Firmware.Sketch) (g : Firmware.GpsReading) :
  cursorFollows s /\ Forall (fun c => insideSentinel c = false) (Firmware.coordinates s)
    /\ spaced (Firmware.coordinates s) ->
  Forall (fun c => insideSentinel c = false)
         (Firmware.coordinates (Firmware.processGPSData s g))
  /\ spaced (Firmware.coordinates (Firmware.processGPSData s g)).
Proof.
  intros (Hc & Hf & Hs). unfold Firmware.processGPSData.
  destruct (Firmware.locationValid g); [ | split; assumption ].
  cbv zeta. unfold Firmware.isValidCoordinate.
  destruct ((Firmware.fabs (Firmware.gpsLat g) <? 0.0001)
            && (Firmware.fabs (Firmware.gpsLng g) <? 0.0001)) eqn:Hsent.
  - split; assumption.
  - assert (Hnew : Forall (fun c => insideSentinel c = false)
                          (Firmware.coordinates s ++ [(Firmware.gpsLat g, Firmware.gpsLng g)])).
    { apply Forall_app. split; [ exact Hf | ].
      constructor; [ exact Hsent | constructor ]. }
    destruct Hc as [[He Hi] | (pre & la & lo & He & Hi)]; rewrite Hi; cbn [Firmware.isFirstValidCoordinate].
    + cbn [Firmware.coordinates]. split; [ exact Hnew | ].
      rewrite He. simpl. exact I.
    + cbn [Firmware.lastLat Firmware.lastLon].
      destruct (Firmware.calculateDistance la lo (Firmware.gpsLat g) (Firmware.gpsLng g)
                <? Firmware.MIN_DISTANCE_CHANGE) eqn:Hd.
      * cbn [Firmware.coordinates]. split; assumption.
      * cbn [Firmware.coordinates]. split; [ exact Hnew | ].
        rewrite He in Hs |- *. apply spaced_snoc; [ exact Hs | exact Hd ].
Qed.

(** X1.  After any sequence of readings, no stored point lies inside the
    origin sentinel (latitude and longitude both below [0.0001] in absolute
    value), and no stored point is closer than [MIN_DISTANCE_CHANGE]
    (0.00001, in degrees) to the point stored just before it. *)
Theorem stored_boundary_invariant (readings : list Firmware.GpsReading) :
  Forall (fun c => insideSentinel c = false)
         (Firmware.coordinates (Firmware.runSketch readings))
  /\ spaced (Firmware.coordinates (Firmware.runSketch readings)).
Proof.
  unfold Firmware.runSketch.
  assert (G : forall l s,
             cursorFollows s /\ Forall (fun c => insideSentinel c = false) (Firmware.coordinates s)
               /\ spaced (Firmware.coordinates s) ->
             cursorFollows (fold_left Firmware.processGPSData l s)
             /\ Forall (fun c => insideSentinel c = false)
                       (Firmware.coordinates (fold_left Firmware.processGPSData l s))
             /\ spaced (Firmware.coordinates (fold_left Firmware.processGPSData l s))).
  { induction l as [| g t IH]; intros s Hs; simpl.
    - exact Hs.
    - apply IH. split.
      + apply processGPSData_cursor. apply Hs.
      + apply processGPSData_boundary. exact Hs. }
  apply (G readings Firmware.initialSketch).
  split; [ left; split; reflexivity | ].
  split; [ constructor | exact I ].
Qed.

Lemma Subseq_length (A : Type) (l1 l2 : list A) :
  Subseq l1 l2 -> (List.length l1 <= List.length l2)%nat.
Proof. induction 1; simpl; lia. Qed.

(** One reading stores at most its own fix, at the end. *)
Lemma processGPSData_appends (s : Firmware.Sketch) (g : Firmware.GpsReading) :
  Firmware.coordinates (Firmware.processGPSData s g) = Firmware.coordinates s
  \/ (Firmware.locationValid g = true
      /\ Firmware.coordinates (Firmware.processGPSData s g)
         = Firmware.coordinates s ++ [fixOf g]).
Proof.
  unfold Firmware.processGPSData.
  destruct (Firmware.locationValid g); [ | left; reflexivity ].
  cbv zeta.
  destruct (Firmware.isValidCoordinate _ _ _) as [[] st]; cbn [Firmware.coordinates].
  - right. split; reflexivity.
  - left. reflexivity.
Qed.

Lemma run_appends (more : list Firmware.GpsReading) (s : Firmware.Sketch) :
  exists added,
    Firmware.coordinates (fold_left Firmware.processGPSData more s)
    = Firmware.coordinates s ++ added
    /\ Subseq added (validFixes more).
Proof.
  revert s. induction more as [| g t IH]; intro s; simpl.
  - exists []. rewrite app_nil_r. split; [ reflexivity | constructor ].
  - destruct (IH (Firmware.processGPSData s g)) as (added & Ha & Hsub).
    destruct (processGPSData_appends s g) as [E | [Hv E]].
    + exists added. rewrite Ha, E. split; [ reflexivity | ].
      unfold validFixes. cbn [filter].
      destruct (Firmware.locationValid g); [ | exact Hsub ].
      cbn [map]. apply Subseq_skip. exact Hsub.
    + exists (fixOf g :: added). rewrite Ha, E, <- app_assoc. split; [ reflexivity | ].
      unfold validFixes. cbn [filter]. rewrite Hv. cbn [map].
      apply Subseq_take. exact Hsub.
Qed.

(** X2.  The stored boundary only grows at its end: later readings leave
    the points stored so far in place and append a selection of their own
    valid fixes, in arrival order; so the boundary is a subsequence of the
    fixes read, and never longer than the number of readings. *)
Theorem stored_boundary_append_only (readings more : list Firmware.GpsReading) :
  (exists added,
      Firmware.coordinates (Firmware.runSketch (readings ++ more))
      = Firmware.coordinates (Firmware.runSketch readings) ++ added
      /\ Subseq added (validFixes more))
  /\ Subseq (Firmware.coordinates (Firmware.runSketch readings)) (validFixes readings)
  /\ (List.length (Firmware.coordinates (Firmware.runSketch readings))
      <= List.length readings)%nat.
Proof.
  assert (S1 : Subseq (Firmware.coordinates (Firmware.runSketch readings))
                      (validFixes readings)).
  { unfold Firmware.runSketch.
    destruct (run_appends readings Firmware.initialSketch) as (added & Ha & Hsub).
    rewrite Ha. exact Hsub. }
  split; [ | split; [ exact S1 | ] ].
  - unfold Firmware.runSketch. rewrite fold_left_app.
    apply run_appends.
  - apply Subseq_length in S1.
    unfold validFixes in S1. rewrite length_map in S1.
    pose proof (filter_length_le Firmware.locationValid readings). lia.
Qed.

(** X3.  After any sequence of readings the status shown is derived from
    the current speed: "moving" when the speed is at least 0.5 km/h, "idle"
    otherwise (also when the speed is NaN). *)
Theorem status_follows_speed (readings : list Firmware.GpsReading) :
  Firmware.tractorStatus (Firmware.runSketch readings)
  = if Firmware.MIN_VALID_SPEED <=? Firmware.currentSpeed (Firmware.runSketch readings)
    then "moving"%string else "idle"%string.
Proof.
  unfold Firmware.runSketch.
  assert (G : forall l s,
             Firmware.tractorStatus s
             = (if Firmware.MIN_VALID_SPEED <=? Firmware.currentSpeed s
                then "moving"%string else "idle"%string) ->
             Firmware.tractorStatus (fold_left Firmware.processGPSData l s)
             = (if Firmware.MIN_VALID_SPEED
                   <=? Firmware.currentSpeed (fold_left Firmware.processGPSData l s)
                then "moving"%string else "idle"%string)).
  { induction l as [| g t IH]; intros s Hs; simpl.
    - exact Hs.
    - apply IH. unfold Firmware.processGPSData.
      destruct (Firmware.locationValid g); [ | exact Hs ].
      cbv zeta.
      destruct (Firmware.isValidCoordinate _ _ _) as [[] st]; reflexivity. }
  apply G. reflexivity.
Qed.
(** ** A fix repeated *)

Lemma Prim2SF_infinity : Prim2SF infinity = S754_infinity false.
Proof. vm_compute. reflexivity. Qed.

Lemma is_finite_spec (x : float) :
  is_finite x = true ->
  match Prim2SF x with
  | S754_zero _ | S754_finite _ _ _ => True
  | _ => False
  end.
Proof.
  unfold is_finite, is_infinity.
  rewrite is_nan_spec, FloatAxioms.eqb_spec, FloatAxioms.abs_spec, Prim2SF_infinity.
  destruct (Prim2SF x) as [s | s | | s m e]; simpl; try tauto; discriminate.
Qed.

(** A finite number minus itself is [+0]. *)
Lemma sub_self (x : float) : is_finite x = true -> x - x = 0.
Proof.
  intro H. apply is_finite_spec in H.
  apply Prim2SF_inj. rewrite FloatAxioms.sub_spec, Prim2SF_zero.
  unfold SF64sub.
  destruct (Prim2SF x) as [s | s | | s m e]; try tauto.
  - destruct s; reflexivity.
  - unfold SFsub. rewrite Z.sub_diag. reflexivity.
Qed.

Lemma distance_to_itself (lat lon : float) :
  is_finite lat = true -> is_finite lon = true ->
  Firmware.calculateDistance lat lon lat lon = 0.
Proof.
  intros Hlat Hlon. unfold Firmware.calculateDistance.
  rewrite (sub_self lat Hlat), (sub_self lon Hlon). reflexivity.
Qed.

Lemma isValidCoordinate_again (st : Firmware.FilterState) (lat lon : float) :
  is_finite lat = true -> is_finite lon = true ->
  Firmware.isValidCoordinate (snd (Firmware.isValidCoordinate st lat lon)) lat lon
  = (false, snd (Firmware.isValidCoordinate st lat lon)).
Proof.
  intros Hlat Hlon.
  pose proof (distance_to_itself _ _ Hlat Hlon) as Hd.
  assert (Hacc : Firmware.isValidCoordinate (Firmware.mkFilterState false lat lon) lat lon
                 = (false, Firmware.mkFilterState false lat lon)).
  { unfold Firmware.isValidCoordinate.
    cbn [Firmware.isFirstValidCoordinate Firmware.lastLat Firmware.lastLon].
    rewrite Hd. change (0 <? Firmware.MIN_DISTANCE_CHANGE) with true.
    destruct ((Firmware.fabs lat <? 0.0001) && (Firmware.fabs lon <? 0.0001)); reflexivity. }
  unfold Firmware.isValidCoordinate at 2 3.
  destruct ((Firmware.fabs lat <? 0.0001) && (Firmware.fabs lon <? 0.0001)) eqn:Hsent.
  - cbn [snd]. unfold Firmware.isValidCoordinate. rewrite Hsent. reflexivity.
  - destruct (Firmware.isFirstValidCoordinate st) eqn:Hfirst.
    + cbn [snd]. exact Hacc.
    + destruct (Firmware.calculateDistance _ _ _ _ <? Firmware.MIN_DISTANCE_CHANGE) eqn:Hfar.
      * cbn [snd]. unfold Firmware.isValidCoordinate. rewrite Hsent, Hfirst, Hfar. reflexivity.
      * cbn [snd]. exact Hacc.
Qed.

(** X4.  A reading that arrives twice in a row, with finite coordinates,
    changes nothing the second time: its fix is either rejected both times
    or stored once, and speed, heading and status are the same. *)
Theorem repeated_reading_stored_once (s : Firmware.Sketch) (g : Firmware.GpsReading) :
  is_finite (Firmware.gpsLat g) = true ->
  is_finite (Firmware.gpsLng g) = true ->
  Firmware.processGPSData (Firmware.processGPSData s g) g = Firmware.processGPSData s g.
Proof.
  intros Hlat Hlon.
  pose proof (isValidCoordinate_again (Firmware.filterState s) _ _ Hlat Hlon) as Ha.
  unfold Firmware.processGPSData.
  destruct (Firmware.locationValid g); [ | reflexivity ].
  cbv zeta.
  destruct (Firmware.isValidCoordinate (Firmware.filterState s)
              (Firmware.gpsLat g) (Firmware.gpsLng g)) as [valid st] eqn:E.
  cbn [snd] in Ha.
  destruct valid; cbn [Firmware.filterState Firmware.currentHeading Firmware.coordinates];
    rewrite Ha; destruct (Firmware.courseValid g); reflexivity.
Qed.

Lemma repeated_reading_stored_once_witness :
  Firmware.coordinates
    (Firmware.runSketch [Firmware.mkGpsReading true 12.97 78.95 3 false 0;
                         Firmware.mkGpsReading true 12.97 78.95 3 false 0])
  = [(12.97, 78.95)].
Proof.
  unfold Firmware.runSketch. cbn [fold_left].
  rewrite (repeated_reading_stored_once Firmware.initialSketch
             (Firmware.mkGpsReading true 12.97 78.95 3 false 0) eq_refl eq_refl).
  vm_compute. reflexivity.
Defined.
(** ** No area is negative *)

Section NotNegative.
Variables prec emax : Z.

Lemma sfNonneg_notNegative (x : spec_float) : sfNonneg x -> sfNotNegative x.
Proof. destruct x; simpl; tauto. Qed.

Lemma binary_round_aux_notNegative (mx ex : Z) (lx : location) :
  (0 <= mx)%Z -> sfNotNegative (binary_round_aux prec emax false mx ex lx).
Proof.
  intro H. apply sfNonneg_notNegative. apply binary_round_aux_nonneg. exact H.
Qed.

Lemma SFabs_notNegative (x : spec_float) : sfNotNegative (SFabs x).
Proof. destruct x; simpl; auto. Qed.

Lemma SFsqrt_notNegative (x : spec_float) : sfNotNegative (SFsqrt prec emax x).
Proof.
  destruct x as [s | [] | | [] m e]; try exact I; try reflexivity.
  apply sfNonneg_notNegative. apply (SFsqrt_nonneg prec emax (S754_finite false m e)).
  reflexivity.
Qed.

Lemma SFadd_notNegative (x y : spec_float) :
  sfNotNegative x -> sfNotNegative y -> sfNotNegative (SFadd prec emax x y).
Proof.
  intros Hx Hy.
  destruct x as [sx | sx | | sx mx ex] eqn:Ex; destruct y as [sy | sy | | sy my ey] eqn:Ey;
    try exact I;
    try (apply sfNonneg_notNegative; apply SFadd_nonneg; simpl in *; auto; fail).
Qed.

Lemma SFmul_notNegative_finite (x : spec_float) (my : positive) (ey : Z) :
  sfNotNegative x -> sfNotNegative (SFmul prec emax x (S754_finite false my ey)).
Proof.
  destruct x as [sx | sx | | sx mx ex]; simpl; intro Hx; subst; try exact I; try reflexivity.
  apply binary_round_aux_notNegative. lia.
Qed.

Lemma SFdiv_notNegative_finite (x : spec_float) (my : positive) (ey : Z) :
  sfNotNegative x -> sfNotNegative (SFdiv prec emax x (S754_finite false my ey)).
Proof.
  destruct x as [sx | sx | | sx mx ex]; simpl; intro Hx; subst; try exact I; try reflexivity.
  unfold SFdiv_core_binary.
  set (m' := match _ with Z0 => _ | Zpos _ => _ | Zneg _ => _ end).
  assert (Hm : (0 <= m')%Z).
  { subst m'. destruct (_ - _ - _)%Z; try lia. apply Z.shiftl_nonneg. lia. }
  pose proof (Z.div_pos m' (Zpos my) Hm ltac:(lia)) as Hq.
  unfold Z.div in Hq.
  destruct (Z.div_eucl m' (Z.pos my)) as [q r]. simpl in Hq.
  apply binary_round_aux_notNegative. exact Hq.
Qed.

End NotNegative.

Lemma ltb0_false_spec (x : float) :
  (x <? 0) = false <-> sfNotNegative (Prim2SF x).
Proof.
  rewrite FloatAxioms.ltb_spec, Prim2SF_zero. unfold SFltb.
  destruct (Prim2SF x) as [s | s | | s m e]; simpl.
  - tauto.
  - destruct s; simpl; split; congruence.
  - tauto.
  - destruct s; simpl; split; congruence.
Qed.

Lemma abs_notNegative (x : float) : (PrimFloat.abs x <? 0) = false.
Proof. apply ltb0_false_spec. rewrite FloatAxioms.abs_spec. apply SFabs_notNegative. Qed.

Lemma sqrt_notNegative (x : float) : (PrimFloat.sqrt x <? 0) = false.
Proof. apply ltb0_false_spec. rewrite FloatAxioms.sqrt_spec. apply SFsqrt_notNegative. Qed.

Lemma add_notNegative (x y : float) :
  (x <? 0) = false -> (y <? 0) = false -> (x + y <? 0) = false.
Proof. rewrite !ltb0_false_spec, FloatAxioms.add_spec. apply SFadd_notNegative. Qed.

(** Multiplying or dividing by a positive finite constant. *)
Lemma mul_notNegative (x c : float) (m : positive) (e : Z) :
  Prim2SF c = S754_finite false m e ->
  (x <? 0) = false -> (x * c <? 0) = false.
Proof.
  intro Hc. rewrite !ltb0_false_spec, FloatAxioms.mul_spec, Hc.
  apply SFmul_notNegative_finite.
Qed.

Lemma div_notNegative (x c : float) (m : positive) (e : Z) :
  Prim2SF c = S754_finite false m e ->
  (x <? 0) = false -> (x / c <? 0) = false.
Proof.
  intro Hc. rewrite !ltb0_false_spec, FloatAxioms.div_spec, Hc.
  apply SFdiv_notNegative_finite.
Qed.

(** [|sum| / 2 * 111.32 * 111.32 * 100] *)
Lemma hectares_notNegative (sum : float) :
  (PrimFloat.abs sum / 2 * 111.32 * 111.32 * 100 <? 0) = false.
Proof.
  eapply mul_notNegative; [ vm_compute; reflexivity | ].
  eapply mul_notNegative; [ vm_compute; reflexivity | ].
  eapply mul_notNegative; [ vm_compute; reflexivity | ].
  eapply div_notNegative; [ vm_compute; reflexivity | ].
  apply abs_notNegative.
Qed.

Lemma shoelace_notNegative (coordinates : list Point) :
  (calculateShoelaceArea coordinates <? 0) = false.
Proof.
  unfold calculateShoelaceArea.
  destruct (Nat.ltb (List.length coordinates) 3); [ reflexivity | ].
  cbv zeta. unfold shoelaceSquareDegrees, Math_abs. apply hectares_notNegative.
Qed.

Lemma fold_add_notNegative (A : Type) (term : A -> float) (l : list A) (acc : float) :
  (acc <? 0) = false ->
  (forall i, (term i <? 0) = false) ->
  (fold_left (fun area i => area + term i) l acc <? 0) = false.
Proof.
  intros Hacc Ht. revert acc Hacc.
  induction l as [| i t IH]; intros acc Hacc; simpl.
  - exact Hacc.
  - apply IH. apply add_notNegative; [ exact Hacc | apply Ht ].
Qed.

Lemma haversine_notNegative (M : MathLib) (coordinates : list Point) :
  (calculateHaversineArea M coordinates <? 0) = false.
Proof.
  unfold calculateHaversineArea.
  destruct (Nat.ltb (List.length coordinates) 3); [ reflexivity | ].
  cbv zeta. eapply mul_notNegative; [ vm_compute; reflexivity | ].
  apply (fold_add_notNegative nat
           (fun i => triangleArea M (centroidOf coordinates)
                       (fst (edgeAt coordinates i)) (snd (edgeAt coordinates i)))).
  - reflexivity.
  - intro i. unfold triangleArea, Math_sqrt. apply sqrt_notNegative.
Qed.

Lemma page_haversine_notNegative (M : MathLib) (coords : list Point) :
  (AlgorithmsPage.calculateHaversineArea M coords <? 0) = false.
Proof.
  unfold AlgorithmsPage.calculateHaversineArea.
  destruct (Nat.ltb (List.length coords) 3); [ reflexivity | ].
  cbv zeta. eapply mul_notNegative; [ vm_compute; reflexivity | ].
  apply (fold_add_notNegative nat
           (fun i => AlgorithmsPage.triangleArea M (centroidOf coords)
                       (fst (edgeAt coords i)) (snd (edgeAt coords i)))).
  - reflexivity.
  - intro i. unfold AlgorithmsPage.triangleArea, Math_sqrt. apply sqrt_notNegative.
Qed.

Lemma delaunay_notNegative (M : MathLib) (coordinates : list Point) :
  (calculateDelaunayArea M coordinates <? 0) = false.
Proof.
  unfold calculateDelaunayArea.
  destruct (Nat.ltb (List.length coordinates) 3); [ reflexivity | ].
  cbv zeta. destruct (Nat.eqb _ 0); apply shoelace_notNegative.
Qed.

Lemma dispatched_notNegative (M : MathLib) (algorithm : string) (coordinates : list Point) :
  (getAreaCalculationFunction M algorithm coordinates <? 0) = false.
Proof.
  unfold getAreaCalculationFunction.
  destruct (String.eqb algorithm "haversine"); [ apply haversine_notNegative | ].
  destruct (String.eqb algorithm "convexHull"); [ apply shoelace_notNegative | ].
  destruct (String.eqb algorithm "delaunay");
    [ apply delaunay_notNegative | apply shoelace_notNegative ].
Qed.

(** X5.  No area function returns a negative number: whatever the boundary
    and the algorithm name, the result is zero, positive or NaN.  This holds
    of the four utilities, of the dispatcher, of the algorithms page's
    haversine copy and of the firmware's [calculateArea]. *)
Theorem areas_are_not_negative (M : MathLib) (coordinates : list Point) :
  (calculateShoelaceArea coordinates <? 0) = false
  /\ (calculateHaversineArea M coordinates <? 0) = false
  /\ (calculateConvexHullArea M coordinates <? 0) = false
  /\ (calculateDelaunayArea M coordinates <? 0) = false
  /\ (forall algorithm : string,
        (getAreaCalculationFunction M algorithm coordinates <? 0) = false)
  /\ (AlgorithmsPage.calculateHaversineArea M coordinates <? 0) = false
  /\ (forall stored : list (float * float), (Firmware.calculateArea stored <? 0) = false).
Proof.
  assert (Hs := shoelace_notNegative coordinates).
  assert (Hh := haversine_notNegative M coordinates).
  assert (Hc : (calculateConvexHullArea M coordinates <? 0) = false)
    by apply shoelace_notNegative.
  assert (Hd := delaunay_notNegative M coordinates).
  repeat split; try assumption.
  - intro algorithm. apply dispatched_notNegative.
  - apply page_haversine_notNegative.
  - intro stored. unfold Firmware.calculateArea.
    destruct (Nat.ltb (List.length stored) 3); [ reflexivity | ].
    cbv zeta. unfold Firmware.fabs. apply hectares_notNegative.
Qed.

(** ** The copies of the shoelace formula *)

Lemma fold_left_same (A B : Type) (f g : A -> B -> A) (l : list B) (a : A) :
  (forall x y, f x y = g x y) -> fold_left f l a = fold_left g l a.
Proof.
  intro H. revert a. induction l as [| y t IH]; intro a; simpl.
  - reflexivity.
  - rewrite H. apply IH.
Qed.

Lemma nth_formattedCoords (coordinates : list Point) (k : nat) :
  nth k (map (fun coord : Point => (lat coord, lon coord)) coordinates) (0, 0)
  = (lat (nth k coordinates (mkCoordinate 0 0)), lon (nth k coordinates (mkCoordinate 0 0))).
Proof.
  exact (map_nth (fun coord : Point => (lat coord, lon coord)) coordinates (mkCoordinate 0 0) k).
Qed.

Lemma home_loop_is_shoelaceSum (coordinates : list Point) :
  fold_left (Home.areaStep (map (fun coord => (lat coord, lon coord)) coordinates))
            (seq 0 (List.length (map (fun coord => (lat coord, lon coord)) coordinates))) 0
  = shoelaceSum coordinates.
Proof.
  unfold shoelaceSum, shoelaceLoop. rewrite length_map.
  apply fold_left_same. intros area i.
  unfold Home.areaStep, shoelaceStep. rewrite length_map.
  cbv zeta. rewrite !nth_formattedCoords. reflexivity.
Qed.

(** X6.  For a boundary of three or more points the dashboard (in
    hectares), the algorithms page and the upload page (with "shoelace" or
    any unknown algorithm name) show one and the same number: the utilities'
    shoelace area rounded to four decimals; in acres the dashboard shows the
    area times 2.47105, rounded.  With fewer than three points each of the
    three pages reports an error and no area. *)
Theorem pages_show_the_same_shoelace_area (M : MathLib) (coordinates : list Point) :
  ((3 <= List.length coordinates)%nat ->
   Home.calculateArea coordinates Dashboard.hectares
   = inr (Dashboard.parseFloat_toFixed4 (calculateShoelaceArea coordinates))
   /\ Home.calculateArea coordinates Dashboard.acres
      = inr (Dashboard.parseFloat_toFixed4 (calculateShoelaceArea coordinates * 2.47105))
   /\ (forall field,
         exists r, Comparison.calculateAreas M coordinates field = inr r
                   /\ Comparison.shoelace r
                      = Some (Dashboard.parseFloat_toFixed4 (calculateShoelaceArea coordinates))
                   /\ Comparison.haversine r
                      = Some (Dashboard.parseFloat_toFixed4
                                (AlgorithmsPage.calculateHaversineArea M coordinates)))
   /\ (forall algorithm : string,
         algorithm <> "haversine"%string -> algorithm <> "convexHull"%string ->
         algorithm <> "delaunay"%string ->
         UploadPage.calculateArea M coordinates algorithm
         = (Some (Dashboard.parseFloat_toFixed4 (calculateShoelaceArea coordinates)), None)))
  /\ ((List.length coordinates < 3)%nat ->
      (forall areaUnit, exists message, Home.calculateArea coordinates areaUnit = inl message)
      /\ (forall field, exists message,
             Comparison.calculateAreas M coordinates field = inl message)
      /\ (forall algorithm, exists message,
             UploadPage.calculateArea M coordinates algorithm = (None, Some message))).
Proof.
  split.
  - intro Hlen.
    assert (Hlt : Nat.ltb (List.length coordinates) 3 = false) by (apply Nat.ltb_ge; exact Hlen).
    assert (Hs : calculateShoelaceArea coordinates
                 = Math_abs (shoelaceSum coordinates) / 2 * 111.32 * 111.32 * 100).
    { unfold calculateShoelaceArea. rewrite Hlt. reflexivity. }
    split; [ | split; [ | split ] ].
    + unfold Home.calculateArea. rewrite Hlt. cbv zeta.
      rewrite home_loop_is_shoelaceSum, Hs. reflexivity.
    + unfold Home.calculateArea. rewrite Hlt. cbv zeta.
      rewrite home_loop_is_shoelaceSum, Hs. reflexivity.
    + intro field. unfold Comparison.calculateAreas. rewrite Hlt. cbv zeta.
      eexists. split; [ reflexivity | ].
      cbn [Comparison.shoelace Comparison.haversine]. unfold Number_toFixed4.
      rewrite Hs. split; reflexivity.
    + intros algorithm Hh Hc Hd. unfold UploadPage.calculateArea. rewrite Hlt. cbv zeta.
      unfold getAreaCalculationFunction.
      apply String.eqb_neq in Hh, Hc, Hd. rewrite Hh, Hc, Hd. reflexivity.
  - intro Hlen.
    assert (Hlt : Nat.ltb (List.length coordinates) 3 = true) by (apply Nat.ltb_lt; exact Hlen).
    split; [ | split ].
    + intro areaUnit. unfold Home.calculateArea. rewrite Hlt. eexists. reflexivity.
    + intro field. unfold Comparison.calculateAreas. rewrite Hlt. eexists. reflexivity.
    + intro algorithm. unfold UploadPage.calculateArea. rewrite Hlt. eexists. reflexivity.
Qed.

Lemma pages_show_the_same_shoelace_area_witness :
  Home.calculateArea unitSquare Dashboard.hectares
  = inr (Dashboard.parseFloat_toFixed4 (calculateShoelaceArea unitSquare)).
Proof.
  apply (proj1 (pages_show_the_same_shoelace_area RefMath.lib unitSquare)).
  simpl. lia.
Defined.

(** ** The name shown and the function used *)

(** X7.  For every algorithm name, known or not, the name displayed goes
    with the function the dispatcher returns: "Haversine Method" with the
    haversine area, "Convex Hull" with the hull area, "Delaunay
    Triangulation" with the hull fallback, and "Shoelace Formula" (the
    default) with the shoelace area; the visualization's title is the same
    name. *)
Theorem label_matches_function (M : MathLib) (algorithm : string) :
  getAlgorithmTitle algorithm = getAlgorithmDisplayName algorithm
  /\ ((getAlgorithmDisplayName algorithm = "Haversine Method"%string
       /\ getAreaCalculationFunction M algorithm = calculateHaversineArea M)
      \/ (getAlgorithmDisplayName algorithm = "Convex Hull"%string
          /\ getAreaCalculationFunction M algorithm = calculateConvexHullArea M)
      \/ (getAlgorithmDisplayName algorithm = "Delaunay Triangulation"%string
          /\ getAreaCalculationFunction M algorithm = calculateDelaunayArea M)
      \/ (getAlgorithmDisplayName algorithm = "Shoelace Formula"%string
          /\ getAreaCalculationFunction M algorithm = calculateShoelaceArea)).
Proof.
  split; [ reflexivity | ].
  unfold getAlgorithmDisplayName, getAreaCalculationFunction.
  destruct (String.eqb algorithm "haversine"); [ left; split; reflexivity | ].
  destruct (String.eqb algorithm "convexHull"); [ right; left; split; reflexivity | ].
  destruct (String.eqb algorithm "delaunay"); [ right; right; left; split; reflexivity | ].
  right; right; right; split; reflexivity.
Qed.

(** ** The accuracy comparison *)

Lemma eqb0_spec (x : float) :
  (x =? 0) = match Prim2SF x with S754_zero _ => true | _ => false end.
Proof.
  rewrite FloatAxioms.eqb_spec, Prim2SF_zero. unfold SFeqb.
  destruct (Prim2SF x) as [s | s | | s m e]; simpl; try reflexivity.
  - destruct s; reflexivity.
  - destruct s; reflexivity.
Qed.

(** The percentage by which a finite, non-zero area differs from itself. *)
Lemma diff_of_equal_areas (x : float) :
  is_finite x = true -> (x =? 0) = false ->
  ((x - x) / x * 100 =? 0) = true.
Proof.
  intros Hf Hz.
  rewrite (sub_self x Hf).
  pose proof (is_finite_spec x Hf) as Hx.
  rewrite eqb0_spec in Hz.
  rewrite eqb0_spec, FloatAxioms.mul_spec, FloatAxioms.div_spec, Prim2SF_zero.
  replace (Prim2SF 100) with (S754_finite false 7036874417766400 (-46))
    by (vm_compute; reflexivity).
  destruct (Prim2SF x) as [s | s | | s m e]; try tauto; try discriminate.
Qed.

Lemma falsy_Some (v : float) : falsy (Some v) = false -> is_nan v = false /\ (v =? 0) = false.
Proof. simpl. intro H. apply orb_false_iff in H. exact H. Qed.

(** X8.  The accuracy comparison is shown exactly when the four areas
    (device, web, shoelace, haversine) are all set, not zero and not NaN;
    its reference is the device's area, each row carries its area and the
    difference [(area - reference) / reference * 100], and a row whose area
    equals a finite reference has difference zero. *)
Theorem accuracy_comparison (r : Comparison.AreaResults) :
  (Comparison.getAccuracyComparison r = None
   <-> falsy (Comparison.esp32 r) || falsy (Comparison.web r)
       || falsy (Comparison.shoelace r) || falsy (Comparison.haversine r) = true)
  /\ (forall rows,
        Comparison.getAccuracyComparison r = Some rows ->
        exists e w s h,
          Comparison.esp32 r = Some e /\ Comparison.web r = Some w
          /\ Comparison.shoelace r = Some s /\ Comparison.haversine r = Some h
          /\ is_nan e = false /\ (e =? 0) = false
          /\ rows = Comparison.mkRows (Comparison.rowOf w e) (Comparison.rowOf s e)
                                      (Comparison.rowOf h e)
          /\ (is_finite e = true -> w = e ->
              (Comparison.diff (Comparison.webRow rows) =? 0) = true)).
Proof.
  unfold Comparison.getAccuracyComparison.
  destruct r as [s h e w]. cbn [Comparison.esp32 Comparison.web Comparison.shoelace Comparison.haversine].
  destruct (falsy e || falsy w || falsy s || falsy h) eqn:F.
  - split; [ split; reflexivity | discriminate ].
  - apply orb_false_iff in F. destruct F as [F Fh].
    apply orb_false_iff in F. destruct F as [F Fs].
    apply orb_false_iff in F. destruct F as [Fe Fw].
    destruct e as [e |]; [ | discriminate ].
    destruct w as [w |]; [ | discriminate ].
    destruct s as [s |]; [ | discriminate ].
    destruct h as [h |]; [ | discriminate ].
    split; [ split; discriminate | ].
    intros rows Hrows. injection Hrows as <-.
    destruct (falsy_Some e Fe) as [Hn Hz].
    exists e, w, s, h. repeat (split; [ reflexivity || assumption | ]).
    intros Hfin ->. cbn [Comparison.webRow Comparison.diff Comparison.rowOf].
    apply diff_of_equal_areas; assumption.
Qed.

Lemma accuracy_comparison_witness :
  exists e w s h,
    Comparison.esp32 equalAreas = Some e /\ Comparison.web equalAreas = Some w
    /\ Comparison.shoelace equalAreas = Some s /\ Comparison.haversine equalAreas = Some h
    /\ is_nan e = false /\ (e =? 0) = false
    /\ Comparison.mkRows (Comparison.rowOf 1.2 1.2) (Comparison.rowOf 1.25 1.2)
                         (Comparison.rowOf 1.3 1.2)
       = Comparison.mkRows (Comparison.rowOf w e) (Comparison.rowOf s e)
                           (Comparison.rowOf h e)
    /\ (is_finite e = true -> w = e ->
        (Comparison.diff
           (Comparison.webRow
              (Comparison.mkRows (Comparison.rowOf 1.2 1.2) (Comparison.rowOf 1.25 1.2)
                                 (Comparison.rowOf 1.3 1.2))) =? 0) = true).
Proof.
  exact (proj2 (accuracy_comparison equalAreas) _ eq_refl).
Defined.

(** ** The shape of the convex hull *)

Lemma insertSorted_length (A : Type) (f : A -> A -> float) (x : A) (l : list A) :
  List.length (insertSorted f x l) = S (List.length l).
Proof.
  induction l as [| y t IH]; simpl; [ reflexivity | ].
  destruct (f x y <? 0); simpl; [ reflexivity | rewrite IH; reflexivity ].
Qed.

Lemma insertSorted_keeps (A : Type) (f : A -> A -> float) (x z : A) (l : list A) :
  z = x \/ In z l -> In z (insertSorted f x l).
Proof.
  induction l as [| y t IH]; simpl.
  - intros [-> | []]. left. reflexivity.
  - destruct (f x y <? 0); simpl.
    + intros [-> | [-> | H]]; auto.
    + intros [-> | [-> | H]]; auto.
Qed.

Lemma sort_fold_length (A : Type) (f : A -> A -> float) (l acc : list A) :
  List.length (fold_left (fun sorted x => insertSorted f x sorted) l acc)
  = (List.length l + List.length acc)%nat.
Proof.
  revert acc. induction l as [| x t IH]; intro acc; simpl; [ reflexivity | ].
  rewrite IH, insertSorted_length. lia.
Qed.

Lemma sort_fold_in (A : Type) (f : A -> A -> float) (z : A) (l acc : list A) :
  In z (fold_left (fun sorted x => insertSorted f x sorted) l acc) <-> In z l \/ In z acc.
Proof.
  revert acc. induction l as [| x t IH]; intro acc; simpl.
  - tauto.
  - rewrite IH. split.
    + intros [H | H]; [ tauto | ].
      destruct (insertSorted_in _ _ _ _ _ H) as [-> | H']; tauto.
    + intros [[-> | H] | H]; [ right | left | right ]; try assumption;
        apply insertSorted_keeps; auto.
Qed.

Lemma Array_sort_length (A : Type) (f : A -> A -> float) (l : list A) :
  List.length (Array_sort f l) = List.length l.
Proof. unfold Array_sort. rewrite sort_fold_length. simpl. lia. Qed.

Lemma Array_sort_in (A : Type) (f : A -> A -> float) (z : A) (l : list A) :
  In z (Array_sort f l) <-> In z l.
Proof. unfold Array_sort. rewrite sort_fold_in. simpl. tauto. Qed.

Lemma insertSorted_lowestFirst (M : MathLib) (lowest : nat) (lowestPoint : Point)
    (x : nat * Point) (acc : list (nat * Point)) :
  lowestFirst lowest acc ->
  lowestFirst lowest (insertSorted (hullCompare M lowest lowestPoint) x acc).
Proof.
  intros Hacc h t E (y & Hy & Hl).
  destruct (Nat.eqb (fst x) lowest) eqn:Hx.
  - (* [x] is the lowest point: it compares below everything *)
    assert (Hh : h = x).
    { destruct acc as [| a acc']; simpl in E.
      - injection E as <- _. reflexivity.
      - unfold hullCompare at 1 in E. rewrite Hx in E.
        change (-1 <? 0) with true in E. injection E as <- _. reflexivity. }
    subst h. apply Nat.eqb_eq. exact Hx.
  - (* [x] is another point: the lowest one, if present, is in [acc] *)
    assert (Hin : exists y, In y acc /\ fst y = lowest).
    { exists y. split; [ | exact Hl ].
      destruct (insertSorted_in _ _ _ _ _ Hy) as [-> | Hy']; [ | exact Hy' ].
      apply Nat.eqb_neq in Hx. contradiction. }
    destruct acc as [| a acc'].
    + destruct Hin as (y' & [] & _).
    + pose proof (Hacc a acc' eq_refl Hin) as Ha.
      simpl in E. unfold hullCompare at 1 in E. rewrite Hx in E.
      apply Nat.eqb_eq in Ha. rewrite Ha in E.
      change (1 <? 0) with false in E. injection E as <- _.
      apply Nat.eqb_eq. exact Ha.
Qed.

Lemma Array_sort_lowestFirst (M : MathLib) (lowest : nat) (lowestPoint : Point)
    (l : list (nat * Point)) :
  lowestFirst lowest (Array_sort (hullCompare M lowest lowestPoint) l).
Proof.
  unfold Array_sort.
  assert (G : forall l acc, lowestFirst lowest acc ->
              lowestFirst lowest
                (fold_left (fun sorted x =>
                              insertSorted (hullCompare M lowest lowestPoint) x sorted) l acc)).
  { clear l. induction l as [| x r IH]; intros acc Hacc; simpl.
    - exact Hacc.
    - apply IH. apply insertSorted_lowestFirst. exact Hacc. }
  apply G. intros h t E. discriminate E.
Qed.

(** The slots of [combine (seq 0 n) coordinates]. *)
Lemma in_slots (coordinates : list Point) (i : nat) (p : Point) :
  In (i, p) (combine (seq 0 (List.length coordinates)) coordinates) <->
  (i < List.length coordinates)%nat /\ p = nth i coordinates (pt 0 0).
Proof.
  assert (G : forall (l : list Point) (s : nat),
             In (i, p) (combine (seq s (List.length l)) l) <->
             (s <= i < s + List.length l)%nat /\ p = nth (i - s) l (pt 0 0)).
  { induction l as [| a t IH]; intro s; simpl.
    - split; [ tauto | lia ].
    - rewrite IH. split.
      + intros [E | [Hi Hp]].
        * injection E as <- <-. rewrite Nat.sub_diag. split; [ lia | reflexivity ].
        * split; [ lia | ].
          replace (i - s)%nat with (S (i - S s)) by lia. exact Hp.
      + intros [Hi Hp].
        destruct (Nat.eq_dec i s) as [-> | Hne].
        * left. rewrite Nat.sub_diag in Hp. subst p. reflexivity.
        * right. split; [ lia | ].
          replace (i - s)%nat with (S (i - S s)) in Hp by lia. exact Hp. }
  rewrite (G coordinates 0%nat). rewrite Nat.sub_0_r. split; intros [H1 H2]; split; auto; lia.
Qed.

Lemma lowestIndex_bound (coordinates : list Point) :
  coordinates <> [] -> (lowestIndex coordinates < List.length coordinates)%nat.
Proof.
  intro Hne. unfold lowestIndex.
  assert (Hn : (0 < List.length coordinates)%nat)
    by (destruct coordinates; [ contradiction | simpl; lia ]).
  assert (G : forall l lowest,
             (lowest < List.length coordinates)%nat ->
             Forall (fun i => (i < List.length coordinates)%nat) l ->
             (fold_left (lowestStep coordinates) l lowest < List.length coordinates)%nat).
  { induction l as [| i t IH]; intros lowest Hl Hall; simpl.
    - exact Hl.
    - inversion Hall as [| ? ? Hi Ht]; subst. apply IH; [ | exact Ht ].
      unfold lowestStep. destruct (_ || _); assumption. }
  apply G; [ exact Hn | ].
  apply Forall_forall. intros i Hi. apply in_seq in Hi. lia.
Qed.

(** The pop loop returns a non-empty prefix of a non-empty hull. *)
Lemma popWhile_prefix (fuel : nat) (hull : list Point) (p : Point) :
  exists rest, hull = popWhile fuel hull p ++ rest
               /\ (hull <> [] -> popWhile fuel hull p <> []).
Proof.
  revert hull. induction fuel as [| fuel IH]; intro hull; cbn [popWhile].
  - exists []. rewrite app_nil_r. split; [ reflexivity | auto ].
  - destruct (Nat.leb 2 (List.length hull)
              && negb (isLeftTurn (nth (List.length hull - 2) hull p)
                                  (nth (List.length hull - 1) hull p) p)) eqn:C.
    + apply andb_true_iff in C. destruct C as [Hlen _]. apply Nat.leb_le in Hlen.
      assert (Hne : hull <> []) by (destruct hull; [ simpl in Hlen; lia | discriminate ]).
      destruct (IH (removelast hull)) as (rest & E & Hn).
      exists (rest ++ [last hull p]). split.
      * rewrite app_assoc, <- E. apply app_removelast_last. exact Hne.
      * intros _. apply Hn.
        destruct hull as [| a [| b t]]; simpl in Hlen; try lia. discriminate.
    + exists []. rewrite app_nil_r. split; [ reflexivity | auto ].
Qed.

Lemma scanStep_shape (hull : list Point) (p : Point) :
  hull <> [] ->
  (forall z, In z (scanStep hull p) -> In z hull \/ z = p)
  /\ (2 <= List.length (scanStep hull p) <= S (List.length hull))%nat
  /\ nth 0 (scanStep hull p) (pt 0 0) = nth 0 hull (pt 0 0).
Proof.
  intro Hne. unfold scanStep.
  destruct (popWhile_prefix (List.length hull) hull p) as (rest & E & Hn).
  specialize (Hn Hne).
  set (r := popWhile (List.length hull) hull p) in *.
  assert (Hlen : (List.length hull = List.length r + List.length rest)%nat)
    by (rewrite E at 1; apply length_app).
  split; [ | split ].
  - intros z Hz. apply in_app_iff in Hz. destruct Hz as [Hz | [<- | []]].
    + left. rewrite E. apply in_app_iff. left. exact Hz.
    + right. reflexivity.
  - rewrite length_app. cbn [List.length].
    destruct r as [| a r']; [ contradiction | ]. cbn [List.length] in *. lia.
  - destruct r as [| a r']; [ contradiction | ].
    rewrite E. reflexivity.
Qed.

Lemma scan_shape (points hull : list Point) :
  (2 <= List.length hull)%nat ->
  (forall z, In z (fold_left scanStep points hull) -> In z hull \/ In z points)
  /\ (2 <= List.length (fold_left scanStep points hull)
      <= List.length hull + List.length points)%nat
  /\ nth 0 (fold_left scanStep points hull) (pt 0 0) = nth 0 hull (pt 0 0).
Proof.
  revert hull. induction points as [| p t IH]; intros hull Hlen; simpl.
  - split; [ tauto | split; [ lia | reflexivity ] ].
  - assert (Hne : hull <> []) by (destruct hull; [ simpl in Hlen; lia | discriminate ]).
    destruct (scanStep_shape hull p Hne) as (Hin & Hl & Hh).
    destruct (IH (scanStep hull p) (proj1 Hl)) as (Hin' & Hl' & Hh').
    split; [ | split ].
    + intros z Hz. destruct (Hin' z Hz) as [H | H]; [ | tauto ].
      destruct (Hin z H) as [H' | ->]; tauto.
    + lia.
    + rewrite Hh'. exact Hh.
Qed.

(** X9.  The convex hull never invents a point: every hull vertex is a
    point of the boundary, and the hull has at most as many points as the
    boundary.  For a boundary of more than three points the hull has at
    least two points and starts at the anchor, the point the scan chose as
    lowest. *)
Theorem convex_hull_shape (M : MathLib) (coordinates : list Point) :
  (forall p, In p (calculateConvexHull M coordinates) -> In p coordinates)
  /\ (List.length (calculateConvexHull M coordinates) <= List.length coordinates)%nat
  /\ ((3 < List.length coordinates)%nat ->
      (2 <= List.length (calculateConvexHull M coordinates))%nat
      /\ nth 0 (calculateConvexHull M coordinates) (pt 0 0) = anchorOf coordinates).
Proof.
  unfold calculateConvexHull.
  destruct (Nat.leb (List.length coordinates) 3) eqn:Hle.
  - apply Nat.leb_le in Hle. split; [ auto | split; [ lia | lia ] ].
  - apply Nat.leb_gt in Hle. cbv zeta.
    set (lowest := lowestIndex coordinates).
    set (slots := combine (seq 0 (List.length coordinates)) coordinates).
    set (sorted := Array_sort (hullCompare M lowest (nth lowest coordinates (pt 0 0))) slots).
    assert (Hslots : List.length slots = List.length coordinates).
    { unfold slots. rewrite length_combine, length_seq. lia. }
    assert (Hsorted : List.length (map snd sorted) = List.length coordinates).
    { rewrite length_map. unfold sorted. rewrite Array_sort_length. exact Hslots. }
    assert (Hin : forall p, In p (map snd sorted) -> In p coordinates).
    { intros p Hp. apply in_map_iff in Hp. destruct Hp as ([i q] & <- & Hq).
      apply Array_sort_in in Hq. apply in_combine_r in Hq. exact Hq. }
    destruct (scan_shape (skipn 2 (map snd sorted))
                         [nth 0 (map snd sorted) (pt 0 0); nth 1 (map snd sorted) (pt 0 0)])
      as (Hi & Hl & Hh); [ simpl; lia | ].
    split; [ | split ].
    + intros p Hp. destruct (Hi p Hp) as [[<- | [<- | []]] | H].
      * apply Hin. apply nth_In. lia.
      * apply Hin. apply nth_In. lia.
      * apply Hin. rewrite <- (firstn_skipn 2 (map snd sorted)).
        apply in_app_iff. right. exact H.
    + rewrite length_skipn in Hl. cbn [List.length] in Hl. lia.
    + intros _. split; [ lia | ].
      rewrite Hh. cbn [nth].
      (* the first sorted slot is the lowest one *)
      assert (Hlow : (lowest < List.length coordinates)%nat).
      { apply lowestIndex_bound. destruct coordinates; [ simpl in Hle; lia | discriminate ]. }
      destruct sorted as [| [i q] rest] eqn:Es.
      * exfalso. simpl in Hsorted. lia.
      * cbn [map nth snd].
        pose proof (Array_sort_lowestFirst M lowest (nth lowest coordinates (pt 0 0)) slots)
          as Hfirst.
        fold sorted in Hfirst. rewrite Es in Hfirst.
        assert (Hi' : i = lowest).
        { apply (Hfirst (i, q) rest eq_refl).
          exists (lowest, nth lowest coordinates (pt 0 0)). split; [ | reflexivity ].
          rewrite <- Es. unfold sorted. apply Array_sort_in.
          apply in_slots. split; [ exact Hlow | reflexivity ]. }
        assert (Hq : In (i, q) slots).
        { apply (Array_sort_in _ (hullCompare M lowest (nth lowest coordinates (pt 0 0)))).
          fold sorted. rewrite Es. left. reflexivity. }
        apply in_slots in Hq. destruct Hq as [_ ->]. rewrite Hi'. reflexivity.
Qed.

Lemma convex_hull_shape_witness :
  (2 <= List.length (calculateConvexHull RefMath.lib squareTwice))%nat
  /\ nth 0 (calculateConvexHull RefMath.lib squareTwice) (pt 0 0) = anchorOf squareTwice.
Proof.
  apply (proj2 (proj2 (convex_hull_shape RefMath.lib squareTwice))).
  simpl. lia.
Defined.

(** ** GeoJSON: what is exported is what is imported *)

Lemma eqb_zero_cases (x : float) : (x =? 0) = true -> x = 0 \/ x = neg_zero.
Proof.
  rewrite FloatAxioms.eqb_spec, Prim2SF_zero. unfold SFeqb. intro H.
  destruct (Prim2SF x) as [s | s | | s m e] eqn:E; simpl in H.
  - destruct s.
    + right. apply Prim2SF_inj. rewrite E. reflexivity.
    + left. apply Prim2SF_inj. rewrite E, Prim2SF_zero. reflexivity.
  - destruct s; discriminate.
  - discriminate.
  - destruct s; discriminate.
Qed.

Lemma JSON_number_survives (x : float) :
  GeoJson.survivesJson x = true -> GeoJson.JSON_number x = GeoJson.JNumber x.
Proof.
  unfold GeoJson.survivesJson, GeoJson.JSON_number. intro H.
  apply andb_true_iff in H. destruct H as [Hf Hz].
  apply negb_true_iff in Hf. apply negb_true_iff in Hz. rewrite Hf.
  destruct (x =? 0) eqn:E; [ | reflexivity ].
  destruct (eqb_zero_cases x E) as [-> | ->]; [ reflexivity | ].
  vm_compute in Hz. discriminate.
Qed.

(** X10.  The GeoJSON text the export writes for a boundary with at least
    one point is read back by the import point for point: the export swaps
    each point to (lon, lat) and closes the ring with the first point, the
    import swaps back and drops the closing point; the field name comes
    back unless it is empty.  Each number comes back as [JSON.stringify]
    wrote it: a finite number other than [-0] as itself, [-0] as [0], NaN
    and the infinities as [null].  So a boundary of finite numbers without
    [-0] comes back as it was.  The export of an empty boundary fails. *)
Theorem geojson_round_trip (coordinates : list Point) (fieldName : string) :
  GeoJson.formatCoordinatesAsGeoJSON [] fieldName = None
  /\ (coordinates <> [] ->
      exists text,
        GeoJson.formatCoordinatesAsGeoJSON coordinates fieldName = Some text
        /\ GeoJson.parseGeoJsonFile text
           = Some (map (fun p => mkCoordinate (Some (GeoJson.JSON_number (lat p)))
                                              (Some (GeoJson.JSON_number (lon p))))
                       coordinates,
                   if String.eqb fieldName "" then None else Some fieldName)
        /\ (forallb (fun p => GeoJson.survivesJson (lat p) && GeoJson.survivesJson (lon p))
                    coordinates = true ->
            GeoJson.parseGeoJsonFile text
            = Some (map (fun p => mkCoordinate (Some (GeoJson.JNumber (lat p)))
                                               (Some (GeoJson.JNumber (lon p))))
                        coordinates,
                    if String.eqb fieldName "" then None else Some fieldName)))
  /\ (forall x, is_nan x || is_infinity x = true -> GeoJson.JSON_number x = GeoJson.JNull)
  /\ GeoJson.JSON_number neg_zero = GeoJson.JNumber 0.
Proof.
  split; [ reflexivity | ].
  split; [ | split; [ intros x Hx; unfold GeoJson.JSON_number; rewrite Hx; reflexivity
                    | vm_compute; reflexivity ] ].
  intro Hne. destruct coordinates as [| first rest]; [ contradiction | ].
  eexists. split; [ reflexivity | ].
  match goal with |- ?A /\ _ => assert (Hparse : A) end.
  { unfold GeoJson.parseGeoJsonFile.
    cbn [GeoJson.features GeoJson.properties GeoJson.name GeoJson.geometry
         GeoJson.geometryType GeoJson.rings].
    change (String.eqb "Polygon" "Polygon") with true. cbv iota.
    rewrite map_app. cbn [map]. rewrite removelast_last.
    rewrite map_map. reflexivity. }
  split; [ exact Hparse | ].
  intro Hs. rewrite Hparse. f_equal. f_equal.
  apply map_ext_in. intros p Hp.
  rewrite forallb_forall in Hs. specialize (Hs p Hp).
  apply andb_true_iff in Hs. destruct Hs as [Hlat Hlon].
  rewrite (JSON_number_survives _ Hlat), (JSON_number_survives _ Hlon). reflexivity.
Qed.

Lemma geojson_round_trip_witness :
  exists text,
    GeoJson.formatCoordinatesAsGeoJSON unitSquare "North field" = Some text
    /\ GeoJson.parseGeoJsonFile text
       = Some (map (fun p => mkCoordinate (Some (GeoJson.JNumber (lat p)))
                                          (Some (GeoJson.JNumber (lon p))))
                   unitSquare,
               Some "North field"%string).
Proof.
  destruct (proj1 (proj2 (geojson_round_trip unitSquare "North field")))
    as (text & Htext & _ & Hback); [ discriminate | ].
  exists text. split; [ exact Htext | ]. apply Hback. vm_compute. reflexivity.
Defined.

(** ** The route's store *)

Lemma POST_fold_clean (st : SensorData.Store) (bodies : list SensorData.Body) :
  Forall (fun c => SensorData.nearOrigin (lat c) (lon c) = false)
         (SensorData.storedCoordinates st) ->
  Forall (fun c => SensorData.nearOrigin (lat c) (lon c) = false)
         (SensorData.storedCoordinates (fold_left SensorData.POST bodies st)).
Proof.
  intro H. revert st H. induction bodies as [| data t IH]; intros st H; simpl.
  + exact H.
  + apply IH. unfold SensorData.POST.
    destruct (SensorData.lat_ data) as [la |], (SensorData.lon_ data) as [lo |].
    * destruct (SensorData.nearOrigin la lo) eqn:N; [ exact H | ].
      cbn [SensorData.storedCoordinates]. apply Forall_app. split; [ exact H | ].
      constructor; [ exact N | constructor ].
    * destruct (SensorData.area_ data), (SensorData.coordinates_ data); try exact H.
      cbv zeta. cbn [SensorData.storedCoordinates].
      destruct (Nat.ltb 0 _); [ | exact H ].
      apply Forall_forall. intros c Hc. apply filter_In in Hc.
      destruct Hc as [_ Hc]. apply negb_true_iff in Hc. exact Hc.
    * destruct (SensorData.area_ data), (SensorData.coordinates_ data); try exact H.
      cbv zeta. cbn [SensorData.storedCoordinates].
      destruct (Nat.ltb 0 _); [ | exact H ].
      apply Forall_forall. intros c Hc. apply filter_In in Hc.
      destruct Hc as [_ Hc]. apply negb_true_iff in Hc. exact Hc.
    * destruct (SensorData.area_ data), (SensorData.coordinates_ data); try exact H.
      cbv zeta. cbn [SensorData.storedCoordinates].
      destruct (Nat.ltb 0 _); [ | exact H ].
      apply Forall_forall. intros c Hc. apply filter_In in Hc.
      destruct Hc as [_ Hc]. apply negb_true_iff in Hc. exact Hc.
Qed.

(** X11.  POST requests keep the in-memory store free of origin fixes: if
    no stored coordinate is within [1e-4] of (0, 0) in both components,
    none is after any sequence of POST bodies, live coordinates and area
    uploads alike; and a live coordinate near the origin changes nothing. *)
Theorem post_keeps_store_clean (st : SensorData.Store) (bodies : list SensorData.Body) :
  Forall (fun c => SensorData.nearOrigin (lat c) (lon c) = false)
         (SensorData.storedCoordinates st) ->
  Forall (fun c => SensorData.nearOrigin (lat c) (lon c) = false)
         (SensorData.storedCoordinates (fold_left SensorData.POST bodies st))
  /\ (forall (data : SensorData.Body) (la lo : float),
        SensorData.lat_ data = Some la -> SensorData.lon_ data = Some lo ->
        SensorData.nearOrigin la lo = true ->
        SensorData.POST st data = st).
Proof.
  intro H. split.
  - exact (POST_fold_clean st bodies H).
  - intros data la lo Hla Hlo N. unfold SensorData.POST. rewrite Hla, Hlo, N. reflexivity.
Qed.

Lemma post_keeps_store_clean_witness :
  Forall (fun c => SensorData.nearOrigin (lat c) (lon c) = false)
         (SensorData.storedCoordinates
            (fold_left SensorData.POST
               [SensorData.mkBody (Some 12.97) (Some 78.95) None None None None None None;
                SensorData.mkBody (Some 0) (Some 0) None None None None None None]
               SensorData.initialStore)).
Proof.
  apply (post_keeps_store_clean SensorData.initialStore). constructor.
Defined.

(** ** The file name *)

(** X12.  The field-name part of a download's file name has as many
    characters as the field name, all of them digits, lowercase letters or
    underscores, whatever the field name contains; a name that is already
    of that form is kept. *)
Theorem file_name_is_safe (fieldName : CodeUnits) :
  List.length (sanitizedFieldName fieldName) = List.length fieldName
  /\ forallb isSafeFileUnit (sanitizedFieldName fieldName) = true
  /\ (forallb isSafeFileUnit fieldName = true -> sanitizedFieldName fieldName = fieldName)
  /\ sanitizedFieldName (sanitizedFieldName fieldName) = sanitizedFieldName fieldName.
Proof.
  assert (Hunit : forall c,
             isSafeFileUnit (toLowerUnit (if isAlphanumeric c then c else 95%nat)) = true).
  { intro c. unfold isSafeFileUnit, toLowerUnit.
    destruct (isAlphanumeric c) eqn:A; [ | reflexivity ].
    unfold isAlphanumeric in A.
    destruct (Nat.leb 65 c && Nat.leb c 90) eqn:U; leb_to_arith; lia. }
  assert (Hkeep : forall c, isSafeFileUnit c = true ->
                            toLowerUnit (if isAlphanumeric c then c else 95%nat) = c).
  { intros c Hc. unfold isSafeFileUnit in Hc. unfold toLowerUnit.
    destruct (Nat.eqb c 95) eqn:E.
    - apply Nat.eqb_eq in E. subst c. reflexivity.
    - assert (A : isAlphanumeric c = true) by (unfold isAlphanumeric; leb_to_arith; lia).
      rewrite A.
      destruct (Nat.leb 65 c && Nat.leb c 90) eqn:U; [ | reflexivity ].
      leb_to_arith. lia. }
  assert (Hsafe : forallb isSafeFileUnit (sanitizedFieldName fieldName) = true).
  { unfold sanitizedFieldName. rewrite map_map. apply forallb_forall.
    intros x Hx. apply in_map_iff in Hx. destruct Hx as (c & <- & _). apply Hunit. }
  assert (Hid : forall l, forallb isSafeFileUnit l = true -> sanitizedFieldName l = l).
  { intros l Hl. unfold sanitizedFieldName. rewrite map_map.
    rewrite <- (map_id l) at 2. apply map_ext_in.
    intros c Hc. apply Hkeep. rewrite forallb_forall in Hl. apply Hl. exact Hc. }
  split; [ unfold sanitizedFieldName; rewrite !length_map; reflexivity | ].
  split; [ exact Hsafe | ].
  split; [ apply Hid | apply Hid; exact Hsafe ].
Qed.

Lemma file_name_is_safe_witness :
  sanitizedFieldName (codeUnitsOf "field_1") = codeUnitsOf "field_1".
Proof.
  apply (proj1 (proj2 (proj2 (file_name_is_safe (codeUnitsOf "field_1"))))).
  reflexivity.
Defined.
(** ** No page shows a negative area *)

Lemma of_uint63_notNegative (n : Uint63.int) : (PrimFloat.of_uint63 n <? 0) = false.
Proof.
  apply ltb0_false_spec. rewrite FloatAxioms.of_uint63_spec.
  pose proof (Uint63.to_Z_bounded n) as Hn.
  destruct (Uint63.to_Z n) as [| p | p]; [ exact I | | lia ].
  cbn [binary_normalize]. unfold binary_round.
  destruct (shl_align _ _ _) as [mz ez].
  apply binary_round_aux_notNegative. lia.
Qed.

Lemma parseFloat_toFixed4_notNegative (x : float) :
  (x <? 0) = false -> (Dashboard.parseFloat_toFixed4 x <? 0) = false.
Proof.
  intro H. unfold Dashboard.parseFloat_toFixed4.
  destruct (is_nan x); [ exact H | ].
  destruct (549755813888 <=? PrimFloat.abs x); [ exact H | ].
  cbv zeta. rewrite H.
  eapply div_notNegative; [ vm_compute; reflexivity | ].
  apply of_uint63_notNegative.
Qed.

Lemma convertArea_notNegative (newUnit : Dashboard.AreaUnit) (area : float) :
  (area <? 0) = false -> (Dashboard.convertArea newUnit area <? 0) = false.
Proof.
  intro H. unfold Dashboard.convertArea. apply parseFloat_toFixed4_notNegative.
  destruct newUnit; (eapply mul_notNegative; [ vm_compute; reflexivity | exact H ]).
Qed.

(** X13.  No page shows a negative area: the number the dashboard, the
    upload page and the algorithms page compute (after rounding to four
    decimals, in hectares or in acres, for every algorithm name) is zero,
    positive or NaN, and switching the unit keeps an area that is not
    negative that way. *)
Theorem shown_area_is_not_negative (M : MathLib) (coordinates : list Point) :
  (forall areaUnit r,
      Home.calculateArea coordinates areaUnit = inr r -> (r <? 0) = false)
  /\ (forall algorithm r e,
        UploadPage.calculateArea M coordinates algorithm = (Some r, e) -> (r <? 0) = false)
  /\ (forall field r s h,
        Comparison.calculateAreas M coordinates field = inr r ->
        Comparison.shoelace r = Some s -> Comparison.haversine r = Some h ->
        (s <? 0) = false /\ (h <? 0) = false)
  /\ (forall newUnit area,
        (area <? 0) = false -> (Dashboard.convertArea newUnit area <? 0) = false).
Proof.
  split; [ | split; [ | split ] ].
  - intros areaUnit r. unfold Home.calculateArea.
    destruct (Nat.ltb (List.length coordinates) 3); [ discriminate | ].
    cbv zeta. intro E. injection E as <-.
    apply parseFloat_toFixed4_notNegative.
    destruct areaUnit.
    + apply hectares_notNegative.
    + eapply mul_notNegative; [ vm_compute; reflexivity | apply hectares_notNegative ].
  - intros algorithm r e. unfold UploadPage.calculateArea.
    destruct (Nat.ltb (List.length coordinates) 3); [ discriminate | ].
    cbv zeta. intro E. injection E as <- _.
    apply parseFloat_toFixed4_notNegative.
    apply dispatched_notNegative.
  - intros field r s h. unfold Comparison.calculateAreas.
    destruct (Nat.ltb (List.length coordinates) 3); [ discriminate | ].
    cbv zeta. intro E. injection E as <-.
    cbn [Comparison.shoelace Comparison.haversine].
    intros Es Eh. injection Es as <-. injection Eh as <-.
    split; apply parseFloat_toFixed4_notNegative.
    + apply hectares_notNegative.
    + apply page_haversine_notNegative.
  - apply convertArea_notNegative.
Qed.

Lemma shown_area_is_not_negative_witness :
  (Dashboard.convertArea Dashboard.acres 1.5 <? 0) = false.
Proof.
  apply (proj2 (proj2 (proj2 (shown_area_is_not_negative RefMath.lib unitSquare)))).
  reflexivity.
Defined.

(** ** From the route to the dashboard *)

(** X14.  The dashboard's filter repeats the route's: applied to the
    coordinates the in-memory store holds after any sequence of POST bodies
    on the initial store, the filter of [fetchData] removes nothing and
    keeps the order.  (What GET loads from the database is outside this
    statement.) *)
Theorem dashboard_filter_keeps_posted (bodies : list SensorData.Body) :
  Home.filterCoordinates
    (SensorData.storedCoordinates (fold_left SensorData.POST bodies SensorData.initialStore))
  = SensorData.storedCoordinates (fold_left SensorData.POST bodies SensorData.initialStore).
Proof.
  pose proof (POST_fold_clean SensorData.initialStore bodies (Forall_nil _)) as H.
  unfold Home.filterCoordinates.
  induction H as [| c l Hc Hl IH]; simpl.
  - reflexivity.
  - unfold SensorData.nearOrigin in Hc. rewrite Hc. cbn [negb]. rewrite IH. reflexivity.
Qed.


(** ** The two copies of the haversine area *)

Lemma is_nan_eq (x : float) : is_nan x = true -> x = nan.
Proof.
  rewrite is_nan_spec. intro H. apply Prim2SF_inj. rewrite Prim2SF_nan.
  destruct (Prim2SF x); try discriminate. reflexivity.
Qed.

Lemma SFadd_plus (prec emax : Z) (x y : spec_float) :
  sfPlus x -> sfNotNegative y -> sfPlus (SFadd prec emax x y).
Proof.
  destruct x as [sx | sx | | sx mx ex]; destruct y as [sy | sy | | sy my ey];
    simpl; intros Hx Hy; subst; try exact I; try reflexivity.
  - destruct sy; reflexivity.
  - destruct (shl_align mx ex _) as [m1 e1].
    destruct (shl_align my ey _) as [m2 e2].
    cbn [fst cond_Zopp].
    change (Z.pos m1 + Z.pos m2)%Z with (Z.pos (m1 + m2)).
    cbn [binary_normalize]. unfold binary_round.
    destruct (shl_align _ _ _) as [mz ez].
    pose proof (binary_round_aux_sign prec emax false (Z.pos mz) ez loc_Exact
                  ltac:(lia)) as H.
    destruct (binary_round_aux prec emax false (Z.pos mz) ez loc_Exact); simpl; auto.
Qed.

Lemma add_plus (acc t : float) :
  sfPlus (Prim2SF acc) -> (t <? 0) = false -> sfPlus (Prim2SF (acc + t)).
Proof.
  intros Ha Ht. rewrite FloatAxioms.add_spec. apply SFadd_plus; [ exact Ha | ].
  apply ltb0_false_spec. exact Ht.
Qed.

(** Adding the negative zero to such a sum is adding zero. *)
Lemma add_neg_zero (acc : float) :
  sfPlus (Prim2SF acc) -> acc + neg_zero = acc + 0.
Proof.
  intro H. apply Prim2SF_inj. rewrite !FloatAxioms.add_spec.
  change (Prim2SF neg_zero) with (S754_zero true).
  rewrite Prim2SF_zero.
  destruct (Prim2SF acc) as [s | s | | s m e]; simpl in *; subst; reflexivity.
Qed.

(** The clamp changes the root only at a negative radicand and at the
    negative zero. *)
Lemma clamp_changes_nothing (r : float) :
  (r <? 0) = false ->
  Math_sqrt (Math_max 0 r) = Math_sqrt r \/ r = neg_zero.
Proof.
  intro H. destruct (is_nan r) eqn:N.
  - left. apply is_nan_eq in N. subst r. vm_compute. reflexivity.
  - rewrite Math_max_zero by exact N.
    destruct (0 <? r) eqn:P; [ left; reflexivity | ].
    apply ltb0_false_spec in H.
    rewrite is_nan_spec in N.
    rewrite FloatAxioms.ltb_spec, Prim2SF_zero in P. unfold SFltb in P.
    destruct (Prim2SF r) as [s | s | | s m e] eqn:E; simpl in H, P; try discriminate.
    + destruct s.
      * right. apply Prim2SF_inj. rewrite E. reflexivity.
      * left. f_equal. apply Prim2SF_inj. rewrite E, Prim2SF_zero. reflexivity.
    + subst s. discriminate.
    + subst s. discriminate.
Qed.

Lemma haversine_folds_agree (M : MathLib) (coordinates : list Point) (l : list nat) (acc : float) :
  sfPlus (Prim2SF acc) ->
  (forall i, In i l -> (radicandAt M coordinates i <? 0) = false) ->
  fold_left (AlgorithmsPage.haversineStep M coordinates (centroidOf coordinates)) l acc
  = fold_left (haversineStep M coordinates (centroidOf coordinates)) l acc.
Proof.
  revert acc. induction l as [| i t IH]; intros acc Hacc H; simpl.
  - reflexivity.
  - assert (E : AlgorithmsPage.haversineStep M coordinates (centroidOf coordinates) acc i
                = haversineStep M coordinates (centroidOf coordinates) acc i).
    { unfold AlgorithmsPage.haversineStep, haversineStep, edgeAt. cbv zeta.
      unfold AlgorithmsPage.triangleArea, triangleArea.
      pose proof (H i (or_introl eq_refl)) as Hi.
      unfold radicandAt, edgeAt in Hi. cbv zeta in Hi. cbn [fst snd] in Hi.
      destruct (clamp_changes_nothing _ Hi) as [C | C].
      - rewrite C. reflexivity.
      - rewrite C.
        change (Math_sqrt neg_zero) with neg_zero.
        change (Math_sqrt (Math_max 0 neg_zero)) with 0.
        apply add_neg_zero. exact Hacc. }
    rewrite E. apply IH.
    + unfold haversineStep, edgeAt. cbv zeta. apply add_plus; [ exact Hacc | ].
      unfold triangleArea, Math_sqrt. apply sqrt_notNegative.
    + intros j Hj. apply H. right. exact Hj.
Qed.

Lemma page_fold_nan (M : MathLib) (coordinates : list Point) (l : list nat) (acc : float) (i : nat) :
  In i l ->
  (radicandAt M coordinates i <? 0) = true ->
  fold_left (AlgorithmsPage.haversineStep M coordinates (centroidOf coordinates)) l acc = nan.
Proof.
  intros Hi Hr. revert acc. induction l as [| j t IH]; intro acc; simpl.
  - destruct Hi.
  - destruct Hi as [-> | Hi].
    + assert (E : AlgorithmsPage.haversineStep M coordinates (centroidOf coordinates) acc i = nan).
      { unfold AlgorithmsPage.haversineStep, edgeAt. cbv zeta.
        unfold radicandAt, edgeAt in Hr. cbv zeta in Hr. cbn [fst snd] in Hr.
        rewrite (is_nan_eq _ (page_copy_negative_radicand M _ _ _ Hr)).
        apply nan_add_r. }
      rewrite E. clear. induction t as [| k t IHt]; simpl.
      * reflexivity.
      * unfold AlgorithmsPage.haversineStep at 2, edgeAt. cbv zeta.
        rewrite nan_add_l. exact IHt.
    + apply IH. exact Hi.
Qed.

(** X15.  The algorithms page's private copy of the haversine area, which
    has no [Math.max], returns what the utilities' function returns as
    long as no triangle has a negative radicand; when one has, the page's
    copy returns NaN (for a boundary of three or more points). *)
Theorem haversine_copies_agree (M : MathLib) (coordinates : list Point) :
  ((forall i, (i < List.length coordinates)%nat ->
              (radicandAt M coordinates i <? 0) = false) ->
   AlgorithmsPage.calculateHaversineArea M coordinates
   = calculateHaversineArea M coordinates)
  /\ ((3 <= List.length coordinates)%nat ->
      (exists i, (i < List.length coordinates)%nat
                 /\ (radicandAt M coordinates i <? 0) = true) ->
      AlgorithmsPage.calculateHaversineArea M coordinates = nan).
Proof.
  split.
  - intro H. unfold AlgorithmsPage.calculateHaversineArea, calculateHaversineArea.
    destruct (Nat.ltb (List.length coordinates) 3); [ reflexivity | ].
    cbv zeta. f_equal. apply haversine_folds_agree.
    + rewrite Prim2SF_zero. reflexivity.
    + intros i Hi. apply H. apply in_seq in Hi. lia.
  - intros Hn [i [Hi Hr]]. unfold AlgorithmsPage.calculateHaversineArea.
    destruct (Nat.ltb (List.length coordinates) 3) eqn:L.
    + apply Nat.ltb_lt in L. lia.
    + cbv zeta. rewrite (page_fold_nan M coordinates _ 0 i); [ apply nan_mul_l | | exact Hr ].
      apply in_seq. lia.
Qed.

Lemma haversine_copies_agree_witness :
  AlgorithmsPage.calculateHaversineArea RefMath.lib unitSquare
  = calculateHaversineArea RefMath.lib unitSquare
  /\ AlgorithmsPage.calculateHaversineArea RefMath.lib [pt 0 0; pt 0 2; pt 0 4; pt 0 6] = nan.
Proof.
  split.
  - apply (proj1 (haversine_copies_agree RefMath.lib unitSquare)).
    intros i Hi.
    do 4 (destruct i as [| i]; [ vm_compute; reflexivity | ]).
    simpl in Hi. lia.
  - apply (proj2 (haversine_copies_agree RefMath.lib [pt 0 0; pt 0 2; pt 0 4; pt 0 6])).
    + simpl. lia.
    + exists 3%nat. split; [ simpl; lia | vm_compute; reflexivity ].
Defined.
